(** * WIP intervals of the Jira Kanban metrics

    A shallow embedding of the work-in-progress core of the repository:
    - [parse_wip_ranges] and [get_issues_in_progress_in_month] of
      [modules/metrics_calculations.py],
    - the daily counting loop of [plot_daily_wip_time_series] and
      [show_daily_wip_table] of [modules/visualizations.py],
    followed by the properties of the specification that concern them.

    Instants are integers: nanoseconds since the epoch in UTC, the value a
    pandas [Timestamp] carries (pandas raises outside its 64-bit range,
    which the dates of a tracker do not reach; the integers here are
    unbounded).  A Python [dict.get] that may return [None] is an [option].
    Exceptions are the [Raise] results of the [result] monad. *)

From Stdlib Require Import ZArith List Bool Lia Sorted Permutation.
From stdpp Require Import gmap strings list sorting.

Import ListNotations.
Local Open Scope Z_scope.

#[local] Set Warnings "-clear-no-such-hyp".

(** ** Exceptions *)

Inductive exn : Type :=
| KeyError (k : string)
| TypeError.

Inductive result (A : Type) : Type :=
| Ok (a : A)
| Raise (e : exn).

Arguments Ok {A} a.
Arguments Raise {A} e.

#[global] Instance result_ret : MRet result := @Ok.

#[global] Instance result_bind : MBind result :=
  fun A B f m => match m with Ok a => f a | Raise e => Raise e end.

(** A [for] loop whose body may raise. *)
Fixpoint for_each {S A} (body : S -> A -> result S) (l : list A) (s : S)
  : result S :=
  match l with
  | [] => Ok s
  | x :: l' => s' ← body s x; for_each body l' s'
  end.

(** ** Time *)

Definition Timestamp : Type := Z.

Definition ns_per_day : Z := 86400000000000.

(** [pd.Timedelta(days=n)] and [datetime.timedelta(days=n)]. *)
Definition Timedelta_days (n : Z) : Z := n * ns_per_day.

(** [td.days]: whole days of a duration, rounded towards minus infinity. *)
Definition days (td : Z) : Z := td / ns_per_day.

(** ** Issues as the tracker returns them *)

(** One item of a changelog entry: [item.get("field")],
    [item.get("fromString")], [item.get("toString")]. *)
Record item : Type := Item {
  field : option string;
  fromString : option string;
  toString : option string
}.

(** The value of a ["created"] key: the ISO 8601 text, and the instant that
    [pd.to_datetime(text, utc=True)] reads from it. *)
Record stamp : Type := Stamp {
  text : string;
  instant : Timestamp
}.

(** One changelog entry.  [created] is [None] when the entry has no
    ["created"] key. *)
Record history : Type := History {
  created : option stamp;
  items : list item
}.

(** One issue: [issue.get("key")], [fields.get("summary")], the display name
    of [fields.get("assignee")], [fields.get("status").get("name")],
    [fields.get("created")] and [changelog.histories]. *)
Record issue : Type := Issue {
  key : option string;
  summary : option string;
  assignee : option string;
  status_name : option string;
  issue_created : option Timestamp;
  histories : list history
}.

(** A WIP record, the dict that [parse_wip_ranges] appends. *)
Record wip_record : Type := WipRecord {
  r_key : option string;
  r_summary : option string;
  r_assignee : option string;
  r_start : Timestamp;
  r_end : Timestamp
}.

#[global] Instance wip_record_eq_dec : EqDecision wip_record.
Proof. solve_decision. Defined.

Definition tracked : string := "In Progress"%string.

(** ** [sorted(changelog, key=lambda x: x["created"])]

    The keys are computed first, for every entry; an entry without the key
    raises [KeyError].  The sort is stable and compares the keys, here the
    texts, with [<] only.  Each entry is returned with its key, which is
    what [entry.get("created")] reads again in the loop. *)

Fixpoint created_keys (l : list history) : result (list (stamp * history)) :=
  match l with
  | [] => Ok []
  | h :: l' =>
      match created h with
      | None => Raise (KeyError "created"%string)
      | Some t => ks ← created_keys l'; Ok ((t, h) :: ks)
      end
  end.

Fixpoint insert_sorted {K A} (lt : K -> K -> bool) (x : K * A)
    (l : list (K * A)) : list (K * A) :=
  match l with
  | [] => [x]
  | y :: l' =>
      if lt (fst y) (fst x) then y :: insert_sorted lt x l' else x :: y :: l'
  end.

Fixpoint sort_by_key {K A} (lt : K -> K -> bool) (l : list (K * A))
  : list (K * A) :=
  match l with
  | [] => []
  | x :: l' => insert_sorted lt x (sort_by_key lt l')
  end.

(** [<] on two ["created"] values, which are strings. *)
Definition text_lt (c1 c2 : stamp) : bool := String.ltb (text c1) (text c2).

Definition sorted_by_created (changelog : list history)
  : result (list (stamp * history)) :=
  ks ← created_keys changelog; Ok (sort_by_key text_lt ks).

(** ** [parse_wip_ranges] *)

(** What the function accumulates over the whole batch. *)
Record batch : Type := Batch {
  wip_records : list wip_record;
  seen_keys : gset (option string);
  missing_details : list (option string * option string)
}.

Definition empty_batch : batch := Batch [] ∅ [].

(** The two per-issue variables of the walk. *)
Record walk : Type := Walk {
  in_progress_start : option Timestamp;
  in_progress_end : option Timestamp
}.

Definition record_of (iss : issue) (s e : Timestamp) : wip_record :=
  WipRecord (key iss) (summary iss) (assignee iss) s e.

(** The body of the inner loop, lines 294-310. *)
Definition scan_item (iss : issue) (timestamp : Timestamp)
    (st : list wip_record * walk) (it : item) : list wip_record * walk :=
  let '(recs, w) := st in
  if bool_decide (field it = Some "status"%string) then
    if bool_decide (toString it = Some tracked)
       && bool_decide (in_progress_start w = None)
    then (recs, Walk (Some timestamp) (in_progress_end w))
    else
      match in_progress_start w with
      | Some s =>
          if bool_decide (fromString it = Some tracked)
          then (recs ++ [record_of iss s timestamp], Walk None (Some timestamp))
          else st
      | None => st
      end
  else st.

Definition scan_entry (iss : issue) (st : list wip_record * walk)
    (entry : stamp * history) : list wip_record * walk :=
  fold_left (scan_item iss (instant (fst entry))) (items (snd entry)) st.

Definition scan_changelog (iss : issue) (recs : list wip_record)
    (entries : list (stamp * history)) : list wip_record * walk :=
  fold_left (scan_entry iss) entries (recs, Walk None None).

(** "Still in progress", lines 313-321. *)
Definition still_in_progress (iss : issue) (end_date : Timestamp)
    (w : walk) (recs : list wip_record) (seen : gset (option string))
  : list wip_record * gset (option string) :=
  match in_progress_start w, in_progress_end w with
  | Some s, None =>
      if bool_decide (status_name iss = Some tracked)
      then (recs ++ [record_of iss s end_date], {[ key iss ]} ∪ seen)
      else (recs, seen)
  | _, _ => (recs, seen)
  end.

(** "Fallback logic", lines 324-334.  [max] of a missing creation time and
    an instant raises [TypeError]. *)
Definition fallback (iss : issue) (end_date : Timestamp) (b : batch)
  : result batch :=
  if bool_decide (status_name iss = Some tracked)
     && bool_decide (key iss ∉ seen_keys b)
  then
    match issue_created iss with
    | None => Raise TypeError
    | Some created_date =>
        let inferred_start :=
          Z.max created_date (end_date - Timedelta_days 30) in
        Ok (Batch (wip_records b ++ [record_of iss inferred_start end_date])
                  ({[ key iss ]} ∪ seen_keys b)
                  (missing_details b ++ [(key iss, summary iss)]))
    end
  else Ok b.

(** The body of the outer loop, lines 280-334. *)
Definition process_issue (end_date : Timestamp) (b : batch) (iss : issue)
  : result batch :=
  entries ← sorted_by_created (histories iss);
  let '(recs, w) := scan_changelog iss (wip_records b) entries in
  let '(recs', seen') := still_in_progress iss end_date w recs (seen_keys b) in
  fallback iss end_date (Batch recs' seen' (missing_details b)).

Definition parse_wip_ranges (issues : list issue) (end_date : Timestamp)
  : result (list wip_record * list (option string * option string)) :=
  b ← for_each (process_issue end_date) issues empty_batch;
  Ok (wip_records b, missing_details b).

(** ** [get_issues_in_progress_in_month] *)

(** A monthly [pd.Period], the value parsed from ["YYYY-MM"]. *)
Record Period : Type := Month {
  p_year : Z;
  p_month : Z
}.

(** Days from 1970-01-01 to the given civil date (proleptic Gregorian). *)
Definition days_from_civil (y m d : Z) : Z :=
  let y' := if m <=? 2 then y - 1 else y in
  let era := y' / 400 in
  let yoe := y' - era * 400 in
  let mp := if 2 <? m then m - 3 else m + 9 in
  let doy := (153 * mp + 2) / 5 + d - 1 in
  let doe := yoe * 365 + yoe / 4 - yoe / 100 + doy in
  era * 146097 + doe - 719468.

(** [period.start_time]: the first instant of the month. *)
Definition start_time (p : Period) : Timestamp :=
  days_from_civil (p_year p) (p_month p) 1 * ns_per_day.

Definition next_month (p : Period) : Period :=
  if p_month p =? 12 then Month (p_year p + 1) 1
  else Month (p_year p) (p_month p + 1).

(** [period.end_time]: the last nanosecond of the month. *)
Definition end_time (p : Period) : Timestamp :=
  start_time (next_month p) - 1.

(** One row of the table the function builds. *)
Record row : Type := Row {
  col_key : option string;
  col_summary : option string;
  col_assignee : option string;
  col_in_progress_start : Timestamp;
  col_in_progress_end : Timestamp;
  col_days_in_progress : Z
}.

Definition row_of (record : wip_record) : row :=
  Row (r_key record) (r_summary record) (r_assignee record)
      (r_start record) (r_end record)
      (days (r_end record - r_start record)).

(** The test of line 360. *)
Definition overlaps (record : wip_record) (window_start window_end : Timestamp)
  : bool :=
  (r_start record <=? window_end) && (window_start <=? r_end record).

(** The loop of lines 358-368. *)
Fixpoint matched_rows (wip_records : list wip_record)
    (start_of_month end_of_month : Timestamp) : list row :=
  match wip_records with
  | [] => []
  | record :: rest =>
      if overlaps record start_of_month end_of_month
      then row_of record :: matched_rows rest start_of_month end_of_month
      else matched_rows rest start_of_month end_of_month
  end.

(** A [pd.DataFrame] built from a list of dicts: its columns are the keys of
    the dicts, so a frame built from the empty list has no column. *)
Record DataFrame : Type := Frame {
  columns : list string;
  rows : list row
}.

Definition row_columns : list string :=
  ["key"; "summary"; "assignee"; "in_progress_start"; "in_progress_end";
   "days_in_progress"]%string.

Definition DataFrame_of (matched : list row) : DataFrame :=
  match matched with
  | [] => Frame [] []
  | _ => Frame row_columns matched
  end.

(** [df.sort_values("in_progress_start")]: a column that the frame does not
    have raises [KeyError].  Rows of equal start are kept in their order
    here; pandas does not promise an order for them. *)
Definition sort_values_in_progress_start (df : DataFrame) : result DataFrame :=
  if bool_decide ("in_progress_start"%string ∈ columns df) then
    Ok (Frame (columns df)
          (map snd (sort_by_key Z.ltb
             (map (fun r => (col_in_progress_start r, r)) (rows df)))))
  else Raise (KeyError "in_progress_start"%string).

(** Lines 358-372 for an explicit window. *)
Definition issues_in_window (wip_records : list wip_record)
    (window_start window_end : Timestamp) : result DataFrame :=
  sort_values_in_progress_start
    (DataFrame_of (matched_rows wip_records window_start window_end)).

Definition get_issues_in_progress_in_month (wip_records : list wip_record)
    (target_month : Period) : result DataFrame :=
  issues_in_window wip_records (start_time target_month) (end_time target_month).

(** ** The daily count of [plot_daily_wip_time_series] and
       [show_daily_wip_table] *)

(** [now.replace(hour=23, minute=59, second=59, microsecond=999999)]. *)
Definition end_of_day (now : Timestamp) : Timestamp :=
  now / ns_per_day * ns_per_day + 86399999999000.

(** [pd.date_range(start, end, freq='D')]: [start], [start] + 1 day, ... up
    to [end_]. *)
Definition date_range (start end_ : Timestamp) : list Timestamp :=
  map (fun k => start + Timedelta_days (Z.of_nat k))
      (seq 0 (Z.to_nat ((end_ - start) / ns_per_day + 1))).

(** [pd.Series(0, index=date_range)]. *)
Definition Series : Type := list (Timestamp * Z).

Definition zero_series (index : list Timestamp) : Series :=
  map (fun d => (d, 0)) index.

(** [wip_counts[day] += 1]. *)
Definition incr_at (day : Timestamp) (wip_counts : Series) : Series :=
  map (fun e => if fst e =? day then (fst e, snd e + 1) else e) wip_counts.

(** The test of line 421, [start <= day <= end]. *)
Definition covers (record : wip_record) (day : Timestamp) : bool :=
  (r_start record <=? day) && (day <=? r_end record).

(** The inner loop, lines 420-422. *)
Definition count_record (index : list Timestamp) (wip_counts : Series)
    (record : wip_record) : Series :=
  fold_left
    (fun counts day => if covers record day then incr_at day counts else counts)
    index wip_counts.

(** Lines 416-422. *)
Definition daily_wip_counts (wip_records : list wip_record)
    (index : list Timestamp) : Series :=
  fold_left (count_record index) wip_records (zero_series index).

(** Lines 411-422.  The function reads the clock; [now] is the instant
    [datetime.now(timezone.utc)] returns. *)
Definition plot_daily_wip_time_series (now : Timestamp)
    (wip_records : list wip_record) (days_lookback : Z) : Series :=
  let end_date := end_of_day now in
  let start_date := end_date - Timedelta_days days_lookback in
  daily_wip_counts wip_records (date_range start_date end_date).

(** Lines 454-464 are the same computation. *)
Definition show_daily_wip_table (now : Timestamp)
    (wip_records : list wip_record) (days_lookback : Z) : Series :=
  let end_date := end_of_day now in
  let start_date := end_date - Timedelta_days days_lookback in
  daily_wip_counts wip_records (date_range start_date end_date).

(** ** Vocabulary of the properties *)

(** Midnight UTC of the day [n] days after the epoch. *)
Definition day (n : Z) : Timestamp := n * ns_per_day.

(** Three ["created"] values, as the tracker writes them. *)
Definition on_day1 : stamp := Stamp "1970-01-02T00:00:00.000+0000" (day 1).

Definition on_day2 : stamp := Stamp "1970-01-03T00:00:00.000+0000" (day 2).

Definition on_day3 : stamp := Stamp "1970-01-04T00:00:00.000+0000" (day 3).

(** One day of the census, at 23:59:59.999999 UTC. *)
Definition sampled (d : Z) : Timestamp := day d + 86399999999000.

(** A status change from [from_] to [to_]. *)
Definition status_item (from_ to_ : string) : item :=
  Item (Some "status"%string) (Some from_) (Some to_).

(** A bare interval, without metadata. *)
Definition interval (s e : Timestamp) : wip_record :=
  WipRecord None None None s e.

(** [<] on the instants of two ["created"] values. *)
Definition instant_lt (c1 c2 : stamp) : bool := instant c1 <? instant c2.

(** Two entries with their keys, in the order of their instants. *)
Definition key_le {A} (x y : stamp * A) : Prop :=
  instant (fst x) <= instant (fst y).

(** The ["created"] values of a changelog. *)
Definition stamps (l : list history) : list stamp := omap created l.

(** The texts of the changelog sort as their instants do, which is the case
    when the tracker writes them all with one UTC offset. *)
Definition sorts_as_instants (l : list history) : Prop :=
  Forall
    (fun c1 => Forall (fun c2 => text_lt c1 c2 = instant_lt c1 c2) (stamps l))
    (stamps l).

(** The interval of the record runs forwards. *)
Definition well_ordered (r : wip_record) : Prop := r_start r <= r_end r.

(** The still-open interval of an issue whose walk ended in [w]: a list of
    at most one record. *)
Definition open_interval (iss : issue) (end_date : Timestamp) (w : walk)
  : list wip_record :=
  match in_progress_start w, in_progress_end w with
  | Some s, None =>
      if bool_decide (status_name iss = Some tracked)
      then [record_of iss s end_date] else []
  | _, _ => []
  end.

(** The fallback interval of an issue created at [c]. *)
Definition fallback_interval (iss : issue) (end_date c : Timestamp)
  : wip_record :=
  record_of iss (Z.max c (end_date - Timedelta_days 30)) end_date.

(** The issue carries a creation time and a timestamp on every changelog
    entry, none of them after [end_date], and the timestamps of the
    changelog sort as their instants. *)
Definition observed_by (end_date : Timestamp) (iss : issue) : Prop :=
  (exists c, issue_created iss = Some c /\ c <= end_date) /\
  Forall (fun h => exists c, created h = Some c /\ instant c <= end_date)
         (histories iss) /\
  sorts_as_instants (histories iss).

(** An event of the changelog enters the tracked status. *)
Definition enters_tracked (iss : issue) : bool :=
  existsb
    (fun h =>
       existsb
         (fun it =>
            bool_decide (field it = Some "status"%string)
            && bool_decide (toString it = Some tracked))
         (items h))
    (histories iss).


(** The number of records whose interval contains the instant [d]. *)
Definition covering (wip_records : list wip_record) (d : Timestamp) : Z :=
  Z.of_nat (length (filter (fun record => covers record d = true) wip_records)).

(** The sum of the counts of a series. *)
Definition total (s : Series) : Z := fold_right Z.add 0 (map snd s).

(** The number of times [d] occurs in [l]. *)
Definition occurrences (l : list Timestamp) (d : Timestamp) : Z :=
  Z.of_nat (length (filter (fun x => x = d) l)).

(** ** Example issues and intervals *)

(** Entered on day 1, left on day 2, entered again on day 3, still there. *)
Definition reentered : issue :=
  Issue (Some "K-1"%string) (Some "Re-entered"%string) None
        (Some tracked) (Some (day 0))
        [History (Some on_day1) [status_item "To Do" tracked];
         History (Some on_day2) [status_item tracked "Review"];
         History (Some on_day3) [status_item "Review" tracked]].

(** Entered on day 1 and left on day 2; the tracker reports it as in
    progress now, with no event for the return. *)
Definition returned : issue :=
  Issue (Some "K-2"%string) (Some "Returned"%string) None
        (Some tracked) (Some (day 0))
        [History (Some on_day1) [status_item "To Do" tracked];
         History (Some on_day2) [status_item tracked "Review"]].

(** The accumulators after [returned], extracted on day 4. *)
Definition returned_batch : batch :=
  Batch [record_of returned (day 1) (day 2);
         fallback_interval returned (day 4) (day 0)]
        {[ key returned ]}
        [(key returned, summary returned)].

(** Entered on day 1 and left for good on day 2. *)
Definition finished : issue :=
  Issue (Some "K-3"%string) (Some "Finished"%string) None
        (Some "Done"%string) (Some (day 0))
        [History (Some on_day1) [status_item "To Do" tracked];
         History (Some on_day2) [status_item tracked "Done"]].


(** In progress, no changelog, created on day 100. *)
Definition late : issue :=
  Issue (Some "K-5"%string) (Some "Late"%string) None
        (Some tracked) (Some (day 100)) [].

(** No changelog and not in progress. *)
Definition idle : issue :=
  Issue (Some "K-6"%string) (Some "Idle"%string) None
        (Some "To Do"%string) (Some (day 0)) [].

(** Entered on day 1 and still in progress. *)
Definition ongoing : issue :=
  Issue (Some "K-7"%string) (Some "Ongoing"%string) None
        (Some tracked) (Some (day 0))
        [History (Some on_day1) [status_item "To Do" tracked]].

(** A second record of the same key, without changelog. *)
Definition ongoing_again : issue :=
  Issue (Some "K-7"%string) (Some "Ongoing"%string) None
        (Some tracked) (Some (day 0)) [].

(** The night of 26 October 2025 in a time zone that leaves summer time at
    03:00: 02:50 before the change is 00:50 UTC, 02:10 after it is 01:10
    UTC, and 09:00 is 08:00 UTC. *)
Definition before_change : stamp :=
  Stamp "2025-10-26T02:50:00.000+0200"
        (day (days_from_civil 2025 10 26) + 50 * 60000000000).

Definition after_change : stamp :=
  Stamp "2025-10-26T02:10:00.000+0100"
        (day (days_from_civil 2025 10 26) + 70 * 60000000000).

Definition next_morning : stamp :=
  Stamp "2025-10-26T09:00:00.000+0100"
        (day (days_from_civil 2025 10 26) + 480 * 60000000000).

(** Left the tracked status at 00:50 UTC, came back at 01:10 UTC and was
    done at 08:00 UTC; the entry into the tracked status before that night
    is not in the changelog. *)
Definition that_night : issue :=
  Issue (Some "K-8"%string) (Some "That night"%string) None
        (Some "Done"%string) (Some (day 0))
        [History (Some before_change) [status_item tracked "Review"];
         History (Some after_change) [status_item "Review" tracked];
         History (Some next_morning) [status_item tracked "Done"]].

(** An interval over February 2025. *)
Definition february : wip_record :=
  interval (start_time (Month 2025 2)) (start_time (Month 2025 2) + day 27).

(** From midnight of day 10 to midnight of day 12. *)
Definition three_days : wip_record := interval (day 10) (day 12).

(** ** Vocabulary of the further properties *)


(** The record carries the key, the summary and the assignee of the issue. *)
Definition belongs_to (iss : issue) (r : wip_record) : Prop :=
  r_key r = key iss /\ r_summary r = summary iss /\ r_assignee r = assignee iss.

(** The instants of the timestamps of a changelog. *)
Definition instants (l : list history) : list Timestamp :=
  map instant (stamps l).

(** Two results of [parse_wip_ranges], one after the other. *)
Definition append_results
    (r1 r2 : result (list wip_record * list (option string * option string)))
  : result (list wip_record * list (option string * option string)) :=
  a ← r1; b ← r2; Ok (fst a ++ fst b, snd a ++ snd b).

(** The accumulators of two runs, one after the other. *)
Definition append_batch (b1 b2 : batch) : batch :=
  Batch (wip_records b1 ++ wip_records b2)
        (seen_keys b1 ∪ seen_keys b2)
        (missing_details b1 ++ missing_details b2).


(** Three intervals: one over February 2025, one from 6 to 9 March and one
    on 1 and 2 March. *)
Definition around_march : list wip_record :=
  [interval (start_time (Month 2025 3) + day 5) (start_time (Month 2025 3) + day 8);
   february;
   interval (start_time (Month 2025 3)) (start_time (Month 2025 3) + day 1 + 5)].

(** The entrywise sum of two series over the same index. *)
Definition add_series (s1 s2 : Series) : Series :=
  zip_with (fun a b => (fst a, snd a + snd b)) s1 s2.

(** ** [parse_cycle_time_issues] *)

(** The ["parent"] object of an issue: [parent_obj.get("key")] and, when the
    object has a ["fields"] key, the summary in it. *)
Record parent_obj : Type := Parent {
  parent_key : option string;
  parent_fields : option (option string)
}.

(** An issue with everything the two parsers read of it.  [raw_assignee] is
    [None] when [fields.get("assignee")] is missing, [None] or empty, and
    otherwise holds the object's [displayName], if it has one.
    [raw_parent] is [None] when [fields.get("parent")] is missing, [None]
    or empty. *)
Record raw_issue : Type := RawIssue {
  raw_key : option string;
  raw_summary : option string;
  raw_assignee : option (option string);
  raw_status : option string;
  raw_created : option Timestamp;
  raw_resolutiondate : option stamp;
  raw_parent : option parent_obj;
  raw_histories : list history
}.

(** What [parse_wip_ranges] reads of the issue: its line 287 takes a missing
    [displayName] for no assignee. *)
Definition wip_view (i : raw_issue) : issue :=
  Issue (raw_key i) (raw_summary i) (mjoin (raw_assignee i)) (raw_status i)
        (raw_created i) (raw_histories i).

(** One row of the cycle time table. *)
Record cycle_row : Type := CycleRow {
  cy_key : option string;
  cy_summary : option string;
  cy_assignee : option string;
  cy_in_progress : Timestamp;
  cy_resolved : Timestamp;
  cy_cycle_time_days : Z;
  cy_parent : option string;
  cy_parent_summary : option string
}.

(** Line 213: [fields["assignee"]["displayName"] if fields.get("assignee")
    else None]. *)
Definition assignee_displayName (i : raw_issue) : result (option string) :=
  match raw_assignee i with
  | None => Ok None
  | Some None => Raise (KeyError "displayName"%string)
  | Some (Some name) => Ok (Some name)
  end.

(** Line 224: [pd.to_datetime(resolved_str, utc=True) if resolved_str else
    None]; the empty string is false. *)
Definition resolved_dt (i : raw_issue) : option Timestamp :=
  match raw_resolutiondate i with
  | Some s => if bool_decide (text s = ""%string) then None else Some (instant s)
  | None => None
  end.

(** Lines 230-233, for one item of an entry.  [pd.to_datetime] of a missing
    ["created"] is [None]. *)
Definition first_in_progress_item (entry : history)
    (in_progress_dt : option Timestamp) (it : item) : option Timestamp :=
  if bool_decide (field it = Some "status"%string) then
    if bool_decide (toString it = Some tracked)
       && bool_decide (in_progress_dt = None)
    then instant <$> created entry
    else in_progress_dt
  else in_progress_dt.

(** Lines 227-233: the changelog is walked in the order it is listed. *)
Definition first_in_progress (changelog : list history) : option Timestamp :=
  fold_left
    (fun in_progress_dt entry =>
       fold_left (first_in_progress_item entry) (items entry) in_progress_dt)
    changelog None.

(** The body of the loop, lines 208-247. *)
Definition cycle_time_issue (records : list cycle_row) (i : raw_issue)
  : result (list cycle_row) :=
  assignee ← assignee_displayName i;
  let parent_key' := parent_obj ← raw_parent i; parent_key parent_obj in
  let parent_summary := parent_obj ← raw_parent i; mjoin (parent_fields parent_obj) in
  match first_in_progress (raw_histories i), resolved_dt i with
  | Some in_progress_dt, Some resolved =>
      Ok (records ++
          [CycleRow (raw_key i) (raw_summary i) assignee in_progress_dt resolved
                    (days (resolved - in_progress_dt))
                    parent_key' parent_summary])
  | _, _ => Ok records
  end.

Definition parse_cycle_time_issues (issues : list raw_issue)
  : result (list cycle_row) :=
  for_each cycle_time_issue issues [].

(** An entry has a status item that enters the tracked status. *)
Definition enters (entry : history) : bool :=
  existsb
    (fun it =>
       bool_decide (field it = Some "status"%string)
       && bool_decide (toString it = Some tracked))
    (items entry).

(** The instants of the entries that enter the tracked status and have a
    timestamp, in the order of the changelog. *)
Definition entered_at (changelog : list history) : list Timestamp :=
  omap (fun entry => if enters entry then instant <$> created entry else None)
       changelog.

(** The changelog is listed in the order [sorted] puts it in. *)
Definition listed_in_order (changelog : list history) : Prop :=
  exists ks, created_keys changelog = Ok ks /\ sort_by_key text_lt ks = ks.

(** The row of an issue that has a resolution date and an entry into the
    tracked status, with the first such entry as its start. *)
Definition cycle_row_of (i : raw_issue) : option cycle_row :=
  match head (entered_at (raw_histories i)), resolved_dt i with
  | Some in_progress, Some resolved =>
      Some (CycleRow (raw_key i) (raw_summary i) (mjoin (raw_assignee i))
              in_progress resolved (days (resolved - in_progress))
              (parent_obj ← raw_parent i; parent_key parent_obj)
              (parent_obj ← raw_parent i; mjoin (parent_fields parent_obj)))
  | _, _ => None
  end.

(** Resolved on day 3; its changelog lists an entry without timestamp, then
    the entries of day 2 and day 1, all three into the tracked status. *)
Definition newest_first : raw_issue :=
  RawIssue (Some "K-10"%string) (Some "Newest first"%string)
           (Some (Some "Ada"%string)) (Some "Done"%string) (Some (day 0))
           (Some on_day3) None
           [History None [status_item "To Do" tracked];
            History (Some on_day2) [status_item "Review" tracked];
            History (Some on_day1) [status_item "To Do" tracked]].

(** Not resolved, and its assignee object has no display name. *)
Definition nameless : raw_issue :=
  RawIssue (Some "K-11"%string) (Some "Nameless"%string)
           (Some None) (Some "To Do"%string) (Some (day 0)) None None [].

(** Entered on day 1, left on day 2 and resolved on day 3, listed oldest
    first. *)
Definition oldest_first : raw_issue :=
  RawIssue (Some "K-12"%string) (Some "Oldest first"%string)
           None (Some "Done"%string) (Some (day 0))
           (Some on_day3) (Some (Parent (Some "K-1"%string) None))
           [History (Some on_day1) [status_item "To Do" tracked];
            History (Some on_day2) [status_item tracked "Done"]].

(** The walk of [parse_wip_ranges] has met a first entry into the tracked
    status, at [s]: either it still waits for the exit, or its first record
    starts at [s]. *)
Definition started (s : Timestamp) (st : list wip_record * walk) : Prop :=
  (fst st = [] /\ snd st = Walk (Some s) None) \/
  (exists r rest, fst st = r :: rest /\ r_start r = s).

(** ** [utils.py]: [clamp] and [classify_by_issueflag] *)

(** [max(min_val, min(value, max_val))], on integers. *)
Definition clamp (value min_val max_val : Z) : Z :=
  Z.max min_val (Z.min value max_val).

#[local] Set Warnings "-register-all".

(** A value of a custom field of the tracker. *)
Inductive pyval : Type :=
| PyNone
| PyBool (b : bool)
| PyNum (n : Z)
| PyStr (s : string)
| PyList (l : list pyval)
| PyDict (d : gmap string pyval).

(** [d.get("value") == match_value], for a string [match_value]. *)
Definition value_equals (d : gmap string pyval) (match_value : string) : bool :=
  match d !! "value"%string with
  | Some (PyStr s) => bool_decide (s = match_value)
  | _ => false
  end.

(** [isinstance(f, dict) and f.get("value") == match_value]. *)
Definition is_match (match_value : string) (f : pyval) : bool :=
  match f with
  | PyDict d => value_equals d match_value
  | _ => false
  end.

Definition classify_by_issueflag (flag : pyval)
    (match_value match_label default_label : string) : string :=
  match flag with
  | PyList l =>
      if existsb (is_match match_value) l then match_label else default_label
  | PyDict d =>
      if value_equals d match_value then match_label else default_label
  | PyStr s =>
      if bool_decide (s = match_value) then match_label else default_label
  | _ => default_label
  end.

(** The value is not a dict. *)
Definition not_a_dict (v : pyval) : Prop :=
  match v with PyDict _ => False | _ => True end.

(** ** [jira_api.py]: the start of the query and the pages *)

(** Lines 198-202 and 242-246: the first day of the month the query starts
    in, from the month of today.  [x or 12] is 12 when [x] is 0. *)
Definition query_start (today : Period) (months : Z) : Period :=
  let month :=
    if (p_month today - months + 12) mod 12 =? 0 then 12
    else (p_month today - months + 12) mod 12 in
  let year :=
    if months <? p_month today then p_year today else p_year today - 1 in
  Month year month.

(** The months from year 0 to the month. *)
Definition month_index (p : Period) : Z := p_year p * 12 + (p_month p - 1).

(** One page of the search: [result.get("issues")], [result.get("isLast")]
    and [result.get("nextPageToken")]. *)
Record search_page (A : Type) : Type := SearchPage {
  page_issues : option (list A);
  isLast : option bool;
  nextPageToken : option string
}.

Arguments SearchPage {A} _ _ _.
Arguments page_issues {A} _.
Arguments isLast {A} _.
Arguments nextPageToken {A} _.

(** What the server answers to one request: a page, or a status that is not
    ok, for which [_search_jql] raises [HTTPError]. *)
Inductive response (A : Type) : Type :=
| Page (p : search_page A)
| NotOk (status_code : Z).

Arguments Page {A} p.
Arguments NotOk {A} status_code.

(** The payload of a request, lines 74-82. *)
Record payload : Type := Payload {
  pl_jql : string;
  pl_maxResults : Z;
  pl_fields : list string;
  pl_nextPageToken : option string
}.

(** How a call of [fetch_issues] ends: it returns the issues, it raises, or
    it has sent a request that the script of the server has no answer to. *)
Inductive outcome (A : Type) : Type :=
| Returned (all_issues : list A)
| HTTPError (status_code : Z)
| Waiting.

Arguments Returned {A} all_issues.
Arguments HTTPError {A} status_code.
Arguments Waiting {A}.

(** A string is true when it is not empty. *)
Definition truthy (token : option string) : bool :=
  match token with
  | Some s => negb (bool_decide (s = ""%string))
  | None => false
  end.

Definition fetch_fields : list string :=
  ["summary"; "status"; "created"; "updated"; "resolutiondate"; "assignee";
   "customfield_10239"; "parent"]%string.

(** The payload [_search_jql] builds for [fetch_issues]: the token is put in
    when it is true. *)
Definition search_payload (jql : string) (max_results : Z)
    (next_page_token : option string) : payload :=
  Payload jql max_results fetch_fields
          (if truthy next_page_token then next_page_token else None).

(** Line 122: [result.get("isLast") or not result.get("nextPageToken")]. *)
Definition stops {A} (p : search_page A) : bool :=
  bool_decide (isLast p = Some true) || negb (truthy (nextPageToken p)).

(** The loop of [fetch_issues], lines 111-124, against the answers the
    server gives in turn.  The result comes with the payloads sent. *)
Fixpoint fetch_loop {A} (jql : string) (max_results : Z)
    (answers : list (response A)) (token : option string)
    (all_issues : list A) (sent : list payload) : outcome A * list payload :=
  let sent' := sent ++ [search_payload jql max_results token] in
  match answers with
  | [] => (Waiting, sent')
  | NotOk status_code :: _ => (HTTPError status_code, sent')
  | Page result :: answers' =>
      let all_issues' := all_issues ++ default [] (page_issues result) in
      if stops result then (Returned all_issues', sent')
      else fetch_loop jql max_results answers' (nextPageToken result)
             all_issues' sent'
  end.

Definition fetch_issues {A} (jql : string) (max_results : Z)
    (answers : list (response A)) : outcome A * list payload :=
  fetch_loop jql max_results answers None [] [].

(** The issues of a list of pages, one page after the other. *)
Definition issues_of {A} (pages : list (search_page A)) : list A :=
  concat (map (fun p => default [] (page_issues p)) pages).

(** Two pages of issue keys and a last one without token. *)
Definition page1 : search_page string :=
  SearchPage (Some ["K-1"; "K-2"]%string) (Some false) (Some "t1"%string).

Definition page2 : search_page string :=
  SearchPage (Some ["K-3"]%string) None (Some "t2"%string).

Definition page3 : search_page string :=
  SearchPage (Some ["K-4"]%string) None None.

(** ** [parse_issues_to_dataframe] *)

(** A [datetime] without time zone, which is what
    [datetime.strptime(text[:19], "%Y-%m-%dT%H:%M:%S")] reads from the first
    19 characters of a timestamp of the tracker: the offset that follows
    them is not read. *)
Record datetime : Type := DateTime {
  dt_year : Z;
  dt_month : Z;
  dt_day : Z;
  dt_hour : Z;
  dt_minute : Z;
  dt_second : Z
}.

(** The seconds from 1970-01-01 00:00:00 to the datetime, on its own
    clock. *)
Definition dt_seconds (d : datetime) : Z :=
  days_from_civil (dt_year d) (dt_month d) (dt_day d) * 86400
  + dt_hour d * 3600 + dt_minute d * 60 + dt_second d.

(** [(a - b).days]. *)
Definition days_between (a b : datetime) : Z :=
  (dt_seconds a - dt_seconds b) / 86400.

(** The ["fields"] of an issue as [parse_issues_to_dataframe] reads them.
    [lf_summary] is [None] when there is no ["summary"] key.  The two dates
    are [None] when [fields.get] gives [None] or the empty string.
    [lf_assignee] and [lf_parent] are as in [raw_issue]. *)
Record lead_fields : Type := LeadFields {
  lf_summary : option (option string);
  lf_created : option datetime;
  lf_resolutiondate : option datetime;
  lf_assignee : option (option string);
  lf_customfield_10239 : option pyval;
  lf_parent : option parent_obj
}.

(** [li_key] and [li_fields] are [None] when the issue has no ["key"] and
    no ["fields"] key. *)
Record lead_issue : Type := LeadIssue {
  li_key : option (option string);
  li_fields : option lead_fields
}.

Record lead_row : Type := LeadRow {
  lr_key : option string;
  lr_summary : option string;
  lr_created : datetime;
  lr_resolved : datetime;
  lr_lead_time_days : Z;
  lr_assignee : option string;
  lr_customfield_10239 : option pyval;
  lr_parent : option string;
  lr_parent_summary : option string
}.

(** [d[k]]: a missing key raises. *)
Definition subscript {A} (k : string) (v : option A) : result A :=
  match v with
  | Some a => Ok a
  | None => Raise (KeyError k)
  end.

(** The body of the loop, lines 30-58. *)
Definition lead_time_issue (records : list lead_row) (issue : lead_issue)
  : result (list lead_row) :=
  fields ← subscript "fields"%string (li_fields issue);
  assignee ←
    match lf_assignee fields with
    | Some (Some name) => Ok (Some name)
    | Some None => Raise (KeyError "displayName"%string)
    | None => Ok None
    end;
  let ktlo_flag := lf_customfield_10239 fields in
  let parent_key' := parent_obj ← lf_parent fields; parent_key parent_obj in
  let parent_summary :=
    parent_obj ← lf_parent fields; mjoin (parent_fields parent_obj) in
  match lf_resolutiondate fields, lf_created fields with
  | Some resolved_dt, Some created_dt =>
      let lead_time := days_between resolved_dt created_dt in
      key ← subscript "key"%string (li_key issue);
      summary ← subscript "summary"%string (lf_summary fields);
      Ok (records ++
          [LeadRow key summary created_dt resolved_dt lead_time assignee
                   ktlo_flag parent_key' parent_summary])
  | _, _ => Ok records
  end.

Definition parse_issues_to_dataframe (issues : list lead_issue)
  : result (list lead_row) :=
  for_each lead_time_issue issues [].

(** The issue has both dates. *)
Definition resolved (issue : lead_issue) : bool :=
  match li_fields issue with
  | Some fields =>
      bool_decide (is_Some (lf_resolutiondate fields))
      && bool_decide (is_Some (lf_created fields))
  | None => false
  end.

(** A resolved issue without key and summary; an open issue without key and
    summary; an issue without fields. *)
Definition closed_in_may : lead_issue :=
  LeadIssue (Some (Some "K-20"%string))
    (Some (LeadFields (Some (Some "Closed in May"%string))
             (Some (DateTime 2025 4 30 23 0 0))
             (Some (DateTime 2025 5 2 22 59 59))
             None None None)).

Definition open_without_key : lead_issue :=
  LeadIssue None
    (Some (LeadFields None (Some (DateTime 2025 4 30 23 0 0)) None None
             None None)).

Definition without_fields : lead_issue := LeadIssue (Some None) None.

(** The row of a resolved issue. *)
Definition lead_row_of (issue : lead_issue) : option lead_row :=
  fields ← li_fields issue;
  resolved_dt ← lf_resolutiondate fields;
  created_dt ← lf_created fields;
  Some (LeadRow (mjoin (li_key issue)) (mjoin (lf_summary fields))
          created_dt resolved_dt (days_between resolved_dt created_dt)
          (mjoin (lf_assignee fields)) (lf_customfield_10239 fields)
          (parent_obj ← lf_parent fields; parent_key parent_obj)
          (parent_obj ← lf_parent fields; mjoin (parent_fields parent_obj))).

(** The issue has its fields, an assignee object with a name if any, and,
    when it has both dates, a key and a summary. *)
Definition complete (issue : lead_issue) : Prop :=
  exists fields,
    li_fields issue = Some fields /\
    lf_assignee fields <> Some None /\
    (resolved issue = true ->
     is_Some (li_key issue) /\ is_Some (lf_summary fields)).

(** * Properties *)

(** ** The error monad and the loops *)

Lemma bind_Ok {A B} (m : result A) (f : A -> result B) (b : B) :
  m ≫= f = Ok b -> exists a, m = Ok a /\ f a = Ok b.
Proof. destruct m as [a|err]; simpl; [eauto | discriminate]. Qed.

Lemma for_each_app {S A} (body : S -> A -> result S) (l1 l2 : list A) (s : S) :
  for_each body (l1 ++ l2) s = for_each body l1 s ≫= for_each body l2.
Proof.
  revert s. induction l1 as [|x l1 IH]; intros s; simpl; [reflexivity|].
  destruct (body s x) as [s'|err]; simpl; [apply IH | reflexivity].
Qed.

(** ** The stable sort *)

Lemma insert_sorted_perm {K A} (lt : K -> K -> bool) (x : K * A) l :
  Permutation (insert_sorted lt x l) (x :: l).
Proof.
  induction l as [|y l IH]; simpl; [reflexivity|].
  destruct (lt (fst y) (fst x)); [|reflexivity].
  rewrite IH. apply perm_swap.
Qed.

Lemma sort_by_key_perm {K A} (lt : K -> K -> bool) (l : list (K * A)) :
  Permutation (sort_by_key lt l) l.
Proof.
  induction l as [|x l IH]; simpl; [reflexivity|].
  rewrite insert_sorted_perm. by constructor.
Qed.

(** The sort only looks at the comparisons between the keys of the list. *)
Lemma insert_sorted_ext {K A} (lt1 lt2 : K -> K -> bool) (x : K * A) l :
  (forall y, y ∈ l -> lt1 (fst y) (fst x) = lt2 (fst y) (fst x)) ->
  insert_sorted lt1 x l = insert_sorted lt2 x l.
Proof.
  induction l as [|y l IH]; intros H; simpl; [reflexivity|].
  rewrite (H y) by (by left). rewrite IH; [reflexivity|].
  intros z Hz. apply H. by right.
Qed.

Lemma sort_by_key_ext {K A} (lt1 lt2 : K -> K -> bool) (l : list (K * A)) :
  (forall x y, x ∈ l -> y ∈ l -> lt1 (fst x) (fst y) = lt2 (fst x) (fst y)) ->
  sort_by_key lt1 l = sort_by_key lt2 l.
Proof.
  induction l as [|x l IH]; intros H; simpl; [reflexivity|].
  rewrite IH by (intros y z Hy Hz; apply H; by right).
  apply insert_sorted_ext. intros y Hy.
  rewrite sort_by_key_perm in Hy. apply H; [by right|by left].
Qed.

Lemma insert_sorted_sorted {A} (x : stamp * A) (l : list (stamp * A)) :
  StronglySorted key_le l ->
  StronglySorted key_le (insert_sorted instant_lt x l).
Proof.
  induction 1 as [|y l Hs IH Hy]; simpl.
  - repeat constructor.
  - unfold instant_lt at 1.
    destruct (Z.ltb_spec (instant (fst y)) (instant (fst x))) as [Hlt|Hle].
    + constructor; [exact IH|].
      rewrite insert_sorted_perm. constructor; [|exact Hy].
      unfold key_le. lia.
    + constructor; [by constructor|].
      constructor; [exact Hle|].
      eapply Forall_impl; [exact Hy|]. unfold key_le. intros z Hz. lia.
Qed.

Lemma sort_by_key_sorted {A} (l : list (stamp * A)) :
  StronglySorted key_le (sort_by_key instant_lt l).
Proof.
  induction l as [|x l IH]; simpl; [constructor|].
  by apply insert_sorted_sorted.
Qed.

Lemma created_keys_spec (l : list history) (ks : list (stamp * history)) :
  created_keys l = Ok ks ->
  map snd ks = l /\ map fst ks = stamps l /\
  Forall (fun k => created (snd k) = Some (fst k)) ks.
Proof.
  revert ks. induction l as [|h l IH]; simpl; intros ks H.
  - injection H as <-. by split.
  - destruct (created h) as [t|] eqn:Ht; [|discriminate].
    apply bind_Ok in H as (ks' & Hks & H). injection H as <-.
    destruct (IH _ Hks) as (IH1 & IH2 & IH3). simpl.
    split; [by rewrite IH1|]. split.
    + by rewrite IH2.
    + by constructor.
Qed.

Lemma created_keys_Ok (l : list history) :
  Forall (fun h => created h <> None) l -> exists ks, created_keys l = Ok ks.
Proof.
  induction 1 as [|h l Hh _ [ks IH]]; simpl; [eauto|].
  destruct (created h) as [t|]; [|done]. rewrite IH. simpl. eauto.
Qed.


(** ** The walk over one changelog *)

(** The walk only appends to the records it is given. *)
Lemma scan_item_prefix iss t recs w it :
  scan_item iss t (recs, w) it =
  (recs ++ fst (scan_item iss t ([], w) it), snd (scan_item iss t ([], w) it)).
Proof.
  unfold scan_item.
  repeat (case_match; simpl); try rewrite app_nil_r; reflexivity.
Qed.

Lemma scan_items_prefix iss t its recs w :
  fold_left (scan_item iss t) its (recs, w) =
  (recs ++ fst (fold_left (scan_item iss t) its ([], w)),
   snd (fold_left (scan_item iss t) its ([], w))).
Proof.
  revert recs w. induction its as [|it its IH]; intros recs w; cbn [fold_left].
  - simpl. by rewrite app_nil_r.
  - rewrite scan_item_prefix.
    destruct (scan_item iss t ([], w) it) as [r1 w1]; cbn [fst snd].
    rewrite IH, (IH r1). cbn [fst snd]. by rewrite app_assoc.
Qed.

Lemma scan_entries_prefix iss entries recs w :
  fold_left (scan_entry iss) entries (recs, w) =
  (recs ++ fst (fold_left (scan_entry iss) entries ([], w)),
   snd (fold_left (scan_entry iss) entries ([], w))).
Proof.
  revert recs w.
  induction entries as [|en entries IH]; intros recs w; cbn [fold_left].
  - simpl. by rewrite app_nil_r.
  - unfold scan_entry at 2 4 6. rewrite scan_items_prefix.
    destruct (fold_left (scan_item iss (instant (fst en))) (items (snd en))
                ([], w))
      as [r1 w1]; cbn [fst snd].
    rewrite IH, (IH r1). cbn [fst snd]. by rewrite app_assoc.
Qed.

Lemma scan_changelog_prefix iss recs entries :
  scan_changelog iss recs entries =
  (recs ++ fst (scan_changelog iss [] entries),
   snd (scan_changelog iss [] entries)).
Proof. apply scan_entries_prefix. Qed.

(** While the pointer is not after the current entry, the walk appends
    intervals that run forwards and keeps the pointer so. *)
Lemma scan_item_inv iss t recs w it :
  Forall well_ordered recs ->
  (forall s, in_progress_start w = Some s -> s <= t) ->
  Forall well_ordered (fst (scan_item iss t (recs, w) it)) /\
  (forall s, in_progress_start (snd (scan_item iss t (recs, w) it)) = Some s ->
             s <= t).
Proof.
  intros Hrecs Hs. unfold scan_item.
  destruct (bool_decide (field it = Some "status"%string)); [|by split].
  destruct (bool_decide (toString it = Some tracked)
            && bool_decide (in_progress_start w = None)); simpl.
  { split; [assumption|]. intros s [= <-]. lia. }
  destruct (in_progress_start w) as [s0|] eqn:Hw; simpl;
    [|split; [assumption|intros; congruence]].
  destruct (bool_decide (fromString it = Some tracked)); simpl.
  - split; [|discriminate].
    apply Forall_app. split; [assumption|].
    apply Forall_singleton. unfold well_ordered; simpl. by apply Hs.
  - split; [assumption|]. intros s Hs'. apply Hs. congruence.
Qed.

Lemma scan_entry_inv iss (c : stamp) h recs w :
  Forall well_ordered recs ->
  (forall s, in_progress_start w = Some s -> s <= instant c) ->
  Forall well_ordered (fst (scan_entry iss (recs, w) (c, h))) /\
  (forall s, in_progress_start (snd (scan_entry iss (recs, w) (c, h))) = Some s ->
             s <= instant c).
Proof.
  unfold scan_entry. simpl. generalize (items h) as its.
  intros its. revert recs w.
  induction its as [|it its IH]; intros recs w Hrecs Hs; cbn [fold_left];
    [by split|].
  destruct (scan_item_inv iss (instant c) recs w it Hrecs Hs) as [H1 H2].
  destruct (scan_item iss (instant c) (recs, w) it) as [r1 w1]. by apply IH.
Qed.

Lemma scan_sorted_inv iss (end_date : Timestamp) entries recs w :
  StronglySorted key_le entries ->
  Forall (fun k => instant (fst k) <= end_date) entries ->
  Forall well_ordered recs ->
  (forall s, in_progress_start w = Some s ->
             s <= end_date /\ Forall (fun k => s <= instant (fst k)) entries) ->
  Forall well_ordered (fst (fold_left (scan_entry iss) entries (recs, w))) /\
  (forall s,
     in_progress_start (snd (fold_left (scan_entry iss) entries (recs, w)))
       = Some s -> s <= end_date).
Proof.
  intros Hsorted. revert recs w.
  induction Hsorted as [|[c h] entries Hs IH Ht]; intros recs w Hle Hrecs Hw.
  - simpl. split; [assumption|]. intros s H. by apply Hw.
  - cbn [fold_left]. inversion Hle as [|? ? Hte Hle']; subst. simpl in Hte.
    destruct (scan_entry_inv iss c h recs w Hrecs) as [H1 H2].
    { intros s H. destruct (Hw s H) as [_ Hall].
      inversion Hall; subst. assumption. }
    destruct (scan_entry iss (recs, w) (c, h)) as [r1 w1].
    apply IH; [assumption|assumption|].
    intros s H. specialize (H2 s H). simpl in H2. split; [lia|].
    eapply Forall_impl; [exact Ht|]. unfold key_le; simpl. intros k Hk. lia.
Qed.

(** ** One issue *)

Lemma still_in_progress_spec iss end_date w recs seen :
  still_in_progress iss end_date w recs seen =
  (recs ++ open_interval iss end_date w,
   if bool_decide (open_interval iss end_date w = [])
   then seen else {[ key iss ]} ∪ seen).
Proof.
  unfold still_in_progress, open_interval.
  destruct (in_progress_start w), (in_progress_end w);
    try destruct (bool_decide (status_name iss = Some tracked));
    simpl; by rewrite ?app_nil_r.
Qed.

(** What one turn of the outer loop does to the three accumulators. *)
Lemma process_issue_Ok end_date b iss b' :
  process_issue end_date b iss = Ok b' ->
  exists entries,
    sorted_by_created (histories iss) = Ok entries /\
    let closed := fst (scan_changelog iss [] entries) in
    let opened := open_interval iss end_date (snd (scan_changelog iss [] entries)) in
    (wip_records b' = wip_records b ++ closed ++ opened /\
     missing_details b' = missing_details b /\
     seen_keys b' =
       (if bool_decide (opened = []) then seen_keys b
        else {[ key iss ]} ∪ seen_keys b) /\
     ~ (status_name iss = Some tracked /\ (key iss ∉ seen_keys b) /\
        opened = []))
    \/
    (exists c,
       issue_created iss = Some c /\
       wip_records b' =
         wip_records b ++ closed ++ [fallback_interval iss end_date c] /\
       missing_details b' = missing_details b ++ [(key iss, summary iss)] /\
       seen_keys b' = {[ key iss ]} ∪ seen_keys b /\
       status_name iss = Some tracked /\ (key iss ∉ seen_keys b) /\
       opened = []).
Proof.
  unfold process_issue. intros H.
  apply bind_Ok in H as (entries & Hsort & H). exists entries.
  split; [exact Hsort|]. rewrite scan_changelog_prefix in H.
  destruct (scan_changelog iss [] entries) as [closed w]. simpl in *.
  rewrite still_in_progress_spec in H. unfold fallback in H. simpl in H.
  destruct (bool_decide_reflect (status_name iss = Some tracked)) as [Hst|Hst];
    simpl in H.
  - destruct (bool_decide_reflect (open_interval iss end_date w = []))
      as [Hop|Hop].
    + destruct (bool_decide_reflect (key iss ∉ seen_keys b)) as [Hk|Hk].
      * right. destruct (issue_created iss) as [c|]; [|discriminate].
        exists c. injection H as <-. simpl.
        rewrite Hop, app_nil_r, <- app_assoc. unfold fallback_interval. done.
      * left. injection H as <-. simpl. rewrite Hop, <- app_assoc.
        naive_solver.
    + rewrite bool_decide_eq_false_2 in H by set_solver.
      left. injection H as <-. simpl. rewrite <- app_assoc. naive_solver.
  - left. injection H as <-. simpl. rewrite <- app_assoc.
    split; [done|]. split; [done|]. split; [done|]. naive_solver.
Qed.

Lemma open_interval_cases iss end_date w :
  open_interval iss end_date w = [] \/
  exists s,
    in_progress_start w = Some s /\ in_progress_end w = None /\
    status_name iss = Some tracked /\
    open_interval iss end_date w = [record_of iss s end_date].
Proof.
  unfold open_interval.
  destruct (in_progress_start w) as [s|]; [|by left].
  destruct (in_progress_end w); [by left|].
  destruct (bool_decide_reflect (status_name iss = Some tracked));
    [right; by exists s | by left].
Qed.

(** ** The batch *)


(** ** Intervals run forwards *)

Lemma sorts_as_instants_keys l ks :
  created_keys l = Ok ks ->
  sorts_as_instants l ->
  sort_by_key text_lt ks = sort_by_key instant_lt ks.
Proof.
  intros Hks Hs. destruct (created_keys_spec _ _ Hks) as (_ & Hfst & _).
  unfold sorts_as_instants in Hs. rewrite <- Hfst in Hs.
  apply sort_by_key_ext. intros x y Hx Hy.
  rewrite Forall_forall in Hs.
  specialize (Hs (fst x) (list_elem_of_fmap_2 fst _ _ Hx)).
  rewrite Forall_forall in Hs.
  exact (Hs (fst y) (list_elem_of_fmap_2 fst _ _ Hy)).
Qed.

Lemma sorted_by_created_Ok end_date iss :
  observed_by end_date iss ->
  exists entries,
    sorted_by_created (histories iss) = Ok entries /\
    StronglySorted key_le entries /\
    Forall (fun k => instant (fst k) <= end_date) entries.
Proof.
  intros (_ & Hh & Hs). unfold sorted_by_created.
  destruct (created_keys_Ok (histories iss)) as [ks Hks].
  { eapply Forall_impl; [exact Hh|]. intros h (t & -> & _). done. }
  rewrite Hks. simpl. eexists. split; [reflexivity|].
  rewrite (sorts_as_instants_keys _ _ Hks Hs).
  split; [apply sort_by_key_sorted|].
  apply (Permutation_Forall (Permutation_sym (sort_by_key_perm instant_lt ks))).
  destruct (created_keys_spec _ _ Hks) as (Hmap & _ & Hcr).
  rewrite <- Hmap in Hh. rewrite Forall_map in Hh.
  rewrite Forall_forall in Hh, Hcr. apply Forall_forall. intros k Hk.
  destruct (Hh k Hk) as (t & Ht & Hle). simpl in Ht.
  rewrite (Hcr k Hk) in Ht. injection Ht as <-. exact Hle.
Qed.

Lemma process_issue_total end_date b iss :
  observed_by end_date iss -> exists b', process_issue end_date b iss = Ok b'.
Proof.
  intros Hobs. destruct (sorted_by_created_Ok _ _ Hobs) as (entries & Hs & _).
  destruct Hobs as [(c & Hc & _) _].
  unfold process_issue. rewrite Hs. simpl.
  destruct (scan_changelog iss (wip_records b) entries) as [recs w].
  destruct (still_in_progress iss end_date w recs (seen_keys b)) as [r1 s1].
  unfold fallback. rewrite Hc. case_match; eauto.
Qed.

Lemma process_issue_well_ordered end_date b iss b' :
  observed_by end_date iss ->
  Forall well_ordered (wip_records b) ->
  process_issue end_date b iss = Ok b' ->
  Forall well_ordered (wip_records b').
Proof.
  intros Hobs Hb H.
  destruct (sorted_by_created_Ok _ _ Hobs) as (entries & Hs & Hsorted & Hle).
  apply process_issue_Ok in H as (entries' & Hs' & H).
  rewrite Hs in Hs'. injection Hs' as <-. simpl in H.
  destruct (scan_sorted_inv iss end_date entries [] (Walk None None)
              Hsorted Hle) as [Hclosed Hstart];
    [constructor | discriminate |].
  fold (scan_changelog iss [] entries) in Hclosed, Hstart.
  assert (Forall well_ordered
            (open_interval iss end_date (snd (scan_changelog iss [] entries))))
    as Hopen.
  { destruct (open_interval_cases iss end_date
                (snd (scan_changelog iss [] entries)))
      as [->|(s & Hw & _ & _ & ->)]; [constructor|].
    apply Forall_singleton. unfold well_ordered; simpl. by apply Hstart. }
  destruct H as [(Hr & _)|(c & Hc & Hr & _)]; rewrite Hr.
  - rewrite !Forall_app. done.
  - rewrite !Forall_app. split; [done|]. split; [done|].
    apply Forall_singleton. destruct Hobs as [(c' & Hc' & Hle') _].
    rewrite Hc in Hc'. injection Hc' as <-.
    unfold well_ordered, fallback_interval, Timedelta_days, ns_per_day; simpl.
    lia.
Qed.

Lemma for_each_well_ordered end_date issues b :
  Forall (observed_by end_date) issues ->
  Forall well_ordered (wip_records b) ->
  exists b', for_each (process_issue end_date) issues b = Ok b' /\
             Forall well_ordered (wip_records b').
Proof.
  intros Hobs. revert b.
  induction Hobs as [|iss issues Hiss _ IH]; intros b Hb; simpl; [eauto|].
  destruct (process_issue_total end_date b iss Hiss) as [b1 Hb1].
  rewrite Hb1. simpl. apply IH.
  eapply process_issue_well_ordered; eauto.
Qed.

(** ** An issue that re-enters the tracked status *)

(** C1 (what the code does): an issue that entered at [t1], left at [t2],
    entered again at [t3] and is in the tracked status gets the closed
    interval [[t1, t2]], but not the open interval [[t3, t4]]: the walk
    leaves [in_progress_end] set to [t2], the test of line 313 fails, and
    the fallback of line 324 emits [[max(c, t4 - 30 days), t4]] and logs the
    issue in [missing_details]. *)
Theorem C1_reentry_falls_back iss c1 c2 c3 t4 c f1 to2 f3 :
  histories iss =
    [History (Some c1) [Item (Some "status"%string) f1 (Some tracked)];
     History (Some c2) [Item (Some "status"%string) (Some tracked) to2];
     History (Some c3) [Item (Some "status"%string) f3 (Some tracked)]] ->
  to2 <> Some tracked ->
  instant c1 < instant c2 -> instant c2 < instant c3 -> instant c3 < t4 ->
  sorts_as_instants (histories iss) ->
  status_name iss = Some tracked ->
  issue_created iss = Some c ->
  parse_wip_ranges [iss] t4 =
    Ok ([record_of iss (instant c1) (instant c2);
         record_of iss (Z.max c (t4 - Timedelta_days 30)) t4],
        [(key iss, summary iss)]).
Proof.
  intros Hh Hto H12 H23 H34 Hs Hst Hc.
  unfold parse_wip_ranges, for_each, process_issue, sorted_by_created.
  rewrite Hh. cbn [created_keys created mbind result_bind].
  rewrite (sorts_as_instants_keys (histories iss))
    by first [assumption | by rewrite Hh].
  cbn [sort_by_key insert_sorted fst snd].
  unfold instant_lt.
  rewrite (proj2 (Z.ltb_ge (instant c3) (instant c2))) by lia.
  cbn [insert_sorted fst snd].
  rewrite (proj2 (Z.ltb_ge (instant c2) (instant c1))) by lia.
  unfold scan_changelog, scan_entry, scan_item, still_in_progress, fallback.
  cbn [fold_left fst snd items field toString fromString
       in_progress_start in_progress_end wip_records seen_keys
       missing_details empty_batch].
  rewrite (bool_decide_eq_true_2 (Some "status"%string = Some "status"%string))
    by done.
  rewrite (bool_decide_eq_true_2 (Some tracked = Some tracked)) by done.
  rewrite (bool_decide_eq_true_2 (None = None)) by done.
  rewrite (bool_decide_eq_false_2 (to2 = Some tracked)) by done.
  cbn [andb in_progress_start in_progress_end app].
  rewrite (bool_decide_eq_true_2 (None = None)) by done.
  cbn [andb in_progress_start in_progress_end app seen_keys wip_records
       missing_details].
  rewrite Hst, Hc.
  rewrite (bool_decide_eq_true_2 (Some tracked = Some tracked)) by done.
  rewrite (bool_decide_eq_true_2 (key iss ∉ ∅)) by set_solver.
  reflexivity.
Qed.

Lemma C1_reentry_falls_back_witness :
  parse_wip_ranges [reentered] (day 4) =
    Ok ([record_of reentered (day 1) (day 2);
         record_of reentered (Z.max (day 0) (day 4 - Timedelta_days 30)) (day 4)],
        [(key reentered, summary reentered)]).
Proof.
  apply (C1_reentry_falls_back reentered on_day1 on_day2 on_day3 (day 4) (day 0)
           (Some "To Do"%string) (Some "Review"%string)
           (Some "Review"%string));
    first [reflexivity | discriminate | by repeat constructor].
Defined.

(** ** When the fallback applies *)

(** C2 (the claim fails): [returned] has an explicit event entering the
    tracked status and an explicit closed interval [[day 1, day 2]], and it
    receives a fallback interval as well. *)
Lemma C2_counterexample :
  enters_tracked returned = true /\
  parse_wip_ranges [returned] (day 4) =
    Ok ([record_of returned (day 1) (day 2);
         fallback_interval returned (day 4) (day 0)],
        [(key returned, summary returned)]).
Proof. split; reflexivity. Qed.

(** C2 (amended): one turn of the loop appends the closed intervals of the
    issue, then either at most one still-open interval and no fallback, or
    no still-open interval and exactly one fallback interval, logged once in
    [missing_details]; the fallback is produced only when the current status
    is the tracked one, the key is not in [seen_keys] and no still-open
    interval was emitted. *)
Theorem C2_fallback_guard end_date b iss b' :
  process_issue end_date b iss = Ok b' ->
  exists entries,
    sorted_by_created (histories iss) = Ok entries /\
    let closed := fst (scan_changelog iss [] entries) in
    let opened :=
      open_interval iss end_date (snd (scan_changelog iss [] entries)) in
    (length opened <= 1)%nat /\
    ((wip_records b' = wip_records b ++ closed ++ opened /\
      missing_details b' = missing_details b)
     \/
     (exists c,
        issue_created iss = Some c /\
        wip_records b' =
          wip_records b ++ closed ++
          [record_of iss (Z.max c (end_date - Timedelta_days 30)) end_date] /\
        missing_details b' = missing_details b ++ [(key iss, summary iss)] /\
        status_name iss = Some tracked /\
        (key iss ∉ seen_keys b) /\
        opened = [])).
Proof.
  intros H. apply process_issue_Ok in H as (entries & Hs & H).
  exists entries. split; [exact Hs|]. simpl in *. split.
  - destruct (open_interval_cases iss end_date
                (snd (scan_changelog iss [] entries)))
      as [->|(s & _ & _ & _ & ->)]; simpl; lia.
  - destruct H as [(Hr & Hm & _)|(c & Hc & Hr & Hm & _ & Hst & Hk & Hop)].
    + left. by split.
    + right. exists c. unfold fallback_interval in Hr. done.
Qed.

Lemma C2_fallback_guard_witness :
  process_issue (day 4) empty_batch returned = Ok returned_batch /\
  exists entries,
    sorted_by_created (histories returned) = Ok entries /\
    let closed := fst (scan_changelog returned [] entries) in
    let opened :=
      open_interval returned (day 4) (snd (scan_changelog returned [] entries)) in
    (length opened <= 1)%nat /\
    ((wip_records returned_batch = wip_records empty_batch ++ closed ++ opened /\
      missing_details returned_batch = missing_details empty_batch)
     \/
     (exists c,
        issue_created returned = Some c /\
        wip_records returned_batch =
          wip_records empty_batch ++ closed ++
          [record_of returned (Z.max c (day 4 - Timedelta_days 30)) (day 4)] /\
        missing_details returned_batch =
          missing_details empty_batch ++ [(key returned, summary returned)] /\
        status_name returned = Some tracked /\
        (key returned ∉ seen_keys empty_batch) /\
        opened = [])).
Proof.
  assert (process_issue (day 4) empty_batch returned = Ok returned_batch) as H
    by (vm_compute; reflexivity).
  split; [exact H|].
  exact (C2_fallback_guard (day 4) empty_batch returned returned_batch H).
Defined.

(** ** A changelog entry without a timestamp *)






(** ** An issue without changelog *)

(** C7: an issue with an empty changelog.  Extracted on its own, in the
    tracked status and created at [c], it yields the single interval
    [[max(c, end_date - 30 days), end_date]] and one entry of
    [missing_details], which is how the code marks the interval as inferred;
    in any other status it yields no interval and no entry.  Inside a batch
    the same holds for its turn of the loop, as long as no earlier record
    has put its key into [seen_keys]. *)
Theorem C7_empty_changelog iss end_date :
  histories iss = [] ->
  (forall c,
     status_name iss = Some tracked -> issue_created iss = Some c ->
     parse_wip_ranges [iss] end_date =
       Ok ([record_of iss (Z.max c (end_date - Timedelta_days 30)) end_date],
           [(key iss, summary iss)]) /\
     forall b,
       key iss ∉ seen_keys b ->
       process_issue end_date b iss =
         Ok (Batch
               (wip_records b ++
                [record_of iss (Z.max c (end_date - Timedelta_days 30)) end_date])
               ({[ key iss ]} ∪ seen_keys b)
               (missing_details b ++ [(key iss, summary iss)]))) /\
  (status_name iss <> Some tracked ->
   parse_wip_ranges [iss] end_date = Ok ([], []) /\
   forall b, process_issue end_date b iss = Ok b).
Proof.
  intros Hh.
  unfold parse_wip_ranges, for_each, process_issue, sorted_by_created,
    scan_changelog, still_in_progress, fallback.
  rewrite Hh. simpl. split.
  - intros c Hst Hc. rewrite Hst, Hc.
    rewrite (bool_decide_eq_true_2 (Some tracked = Some tracked)) by done.
    rewrite (bool_decide_eq_true_2 (key iss ∉ ∅)) by set_solver.
    split; [reflexivity|]. intros b Hb.
    by rewrite (bool_decide_eq_true_2 _ Hb).
  - intros Hst. rewrite (bool_decide_eq_false_2 _ Hst).
    split; [reflexivity|]. by intros [].
Qed.

Lemma C7_empty_changelog_witness :
  histories late = [] /\
  parse_wip_ranges [late] (day 200) =
    Ok ([record_of late (Z.max (day 100) (day 200 - Timedelta_days 30)) (day 200)],
        [(key late, summary late)]) /\
  histories idle = [] /\
  parse_wip_ranges [idle] (day 200) = Ok ([], []).
Proof.
  split; [reflexivity|]. split.
  - apply (proj1 (C7_empty_changelog late (day 200) eq_refl) (day 100));
      reflexivity.
  - split; [reflexivity|].
    apply (proj2 (C7_empty_changelog idle (day 200) eq_refl)). discriminate.
Defined.

(** ** Start and end of the intervals *)

(** C9 (the claim fails): [late] has no event at all, so every event
    timestamp is before the observation end, day 50; it was created on day
    100, and its fallback interval starts on day 100 and ends on day 50. *)
Lemma C9_counterexample :
  Forall (fun h => exists c, created h = Some c /\ instant c <= day 50)
         (histories late) /\
  parse_wip_ranges [late] (day 50) =
    Ok ([record_of late (day 100) (day 50)], [(key late, summary late)]) /\
  ~ r_start (record_of late (day 100) (day 50))
    <= r_end (record_of late (day 100) (day 50)).
Proof.
  split; [constructor|]. split; [reflexivity|].
  simpl. unfold day, ns_per_day. lia.
Qed.

(** The changelog is sorted by the texts of its timestamps.  Where these do
    not sort as their instants, an interval can run backwards: [that_night]
    yields the single interval from 01:10 UTC to 00:50 UTC. *)
Lemma backwards_when_texts_misorder :
  parse_wip_ranges [that_night] (day 30000) =
    Ok ([record_of that_night (instant after_change) (instant before_change)],
        []) /\
  instant before_change < instant after_change /\
  text_lt after_change before_change = true.
Proof. repeat split; vm_compute; reflexivity. Qed.

(** C9 (amended): when the observation end is not before any event
    timestamp nor before the creation time of any issue, and the timestamps
    of each changelog sort as their instants, the extraction returns, and
    every interval it returns, closed, still open or fallback, has its start
    at or before its end. *)
Theorem C9_start_before_end issues end_date :
  Forall (observed_by end_date) issues ->
  exists recs missing,
    parse_wip_ranges issues end_date = Ok (recs, missing) /\
    Forall (fun r => r_start r <= r_end r) recs.
Proof.
  intros H. unfold parse_wip_ranges.
  destruct (for_each_well_ordered end_date issues empty_batch H)
    as (b & -> & Hb); [constructor|].
  simpl. eauto.
Qed.

Lemma C9_start_before_end_witness :
  Forall (observed_by (day 4)) [reentered; returned; finished] /\
  exists recs missing,
    parse_wip_ranges [reentered; returned; finished] (day 4) = Ok (recs, missing) /\
    Forall (fun r => r_start r <= r_end r) recs.
Proof.
  assert (Forall (observed_by (day 4)) [reentered; returned; finished]) as H.
  { repeat constructor;
      first [ by (exists (day 0)) | by (exists on_day1)
            | by (exists on_day2) | by (exists on_day3) ]. }
  split; [exact H|].
  exact (C9_start_before_end [reentered; returned; finished] (day 4) H).
Defined.

(** ** The keys shared by the batch *)




(** ** The window query *)

Lemma overlaps_spec record window_start window_end :
  overlaps record window_start window_end = true <->
  r_start record <= window_end /\ r_end record >= window_start.
Proof. unfold overlaps. rewrite andb_true_iff, !Z.leb_le. lia. Qed.

Lemma row_of_inj r1 r2 : row_of r1 = row_of r2 -> r1 = r2.
Proof. destruct r1, r2. unfold row_of. simpl. by intros [= -> -> -> -> ->]. Qed.

Lemma matched_rows_spec wip_records window_start window_end rw :
  rw ∈ matched_rows wip_records window_start window_end <->
  exists record,
    record ∈ wip_records /\ rw = row_of record /\
    overlaps record window_start window_end = true.
Proof.
  induction wip_records as [|r recs IH]; simpl.
  - split; [intros H; by apply elem_of_nil in H|].
    intros (r & H & _). by apply elem_of_nil in H.
  - destruct (overlaps r window_start window_end) eqn:Hr.
    + rewrite elem_of_cons, IH. split.
      * intros [->|(r' & Hin & -> & Ho)].
        -- exists r. split; [by left|done].
        -- exists r'. split; [by right|done].
      * intros (r' & Hin & -> & Ho). apply elem_of_cons in Hin as [->|Hin].
        -- by left.
        -- right. by exists r'.
    + rewrite IH. split.
      * intros (r' & Hin & -> & Ho). exists r'. split; [by right|done].
      * intros (r' & Hin & -> & Ho). apply elem_of_cons in Hin as [->|Hin].
        -- congruence.
        -- by exists r'.
Qed.

Lemma sorted_rows_perm (l : list row) :
  Permutation
    (map snd (sort_by_key Z.ltb
                (map (fun r => (col_in_progress_start r, r)) l))) l.
Proof.
  rewrite sort_by_key_perm, map_map. simpl. by rewrite map_id.
Qed.

(** The query returns a frame exactly when some record matches. *)
Lemma issues_in_window_cases wip_records window_start window_end :
  (matched_rows wip_records window_start window_end = [] /\
   issues_in_window wip_records window_start window_end =
     Raise (KeyError "in_progress_start"%string))
  \/
  (matched_rows wip_records window_start window_end <> [] /\
   exists df,
     issues_in_window wip_records window_start window_end = Ok df /\
     Permutation (rows df)
       (matched_rows wip_records window_start window_end)).
Proof.
  unfold issues_in_window.
  destruct (matched_rows wip_records window_start window_end) as [|rw l] eqn:Hm.
  - left. by split.
  - right. split; [done|].
    exists (Frame row_columns
              (map snd (sort_by_key Z.ltb
                 (map (fun r => (col_in_progress_start r, r)) (rw :: l))))).
    split; [reflexivity|]. apply (sorted_rows_perm (rw :: l)).
Qed.

(** C8: the query selects a record exactly when its interval and the window
    meet, [start <= window_end] and [end >= window_start], both closed: every
    such record of the input has its row in the returned frame, every row of
    a returned frame comes from such a record, and a record is left out
    exactly when it is disjoint from the window.  The interval [[5, 10]]
    meets the windows [[10, 15]] and [[0, 5]], not [[11, 15]] nor [[0, 4]]. *)
Theorem C8_overlap_selection wip_records window_start window_end :
  (forall record,
     record ∈ wip_records ->
     r_start record <= window_end /\ r_end record >= window_start ->
     exists df,
       issues_in_window wip_records window_start window_end = Ok df /\
       row_of record ∈ rows df) /\
  (forall df rw,
     issues_in_window wip_records window_start window_end = Ok df ->
     rw ∈ rows df ->
     exists record,
       record ∈ wip_records /\ rw = row_of record /\
       r_start record <= window_end /\ r_end record >= window_start) /\
  (forall record,
     overlaps record window_start window_end = false <->
     r_end record < window_start \/ r_start record > window_end) /\
  overlaps (interval 5 10) 10 15 = true /\
  overlaps (interval 5 10) 0 5 = true /\
  overlaps (interval 5 10) 11 15 = false /\
  overlaps (interval 5 10) 0 4 = false.
Proof.
  split; [|split; [|split; [|by repeat split]]].
  - intros r Hin Hov. apply overlaps_spec in Hov.
    assert (row_of r ∈ matched_rows wip_records window_start window_end) as Hrow.
    { apply matched_rows_spec. by exists r. }
    destruct (issues_in_window_cases wip_records window_start window_end)
      as [[Hnil _]|(_ & df & Hdf & Hperm)].
    + rewrite Hnil in Hrow. by apply elem_of_nil in Hrow.
    + exists df. split; [exact Hdf|]. by rewrite Hperm.
  - intros df rw Hdf Hrw.
    destruct (issues_in_window_cases wip_records window_start window_end)
      as [[_ Hraise]|(_ & df' & Hdf' & Hperm)]; [congruence|].
    rewrite Hdf in Hdf'. injection Hdf' as <-. rewrite Hperm in Hrw.
    apply matched_rows_spec in Hrw as (r & Hin & -> & Hov).
    apply overlaps_spec in Hov. by exists r.
  - intros r. unfold overlaps. rewrite andb_false_iff, !Z.leb_gt. lia.
Qed.

Lemma C8_overlap_selection_witness :
  interval 5 10 ∈ [interval 20 30; interval 5 10; interval 0 4] /\
  (5 <= 15 /\ 10 >= 10) /\
  exists df,
    issues_in_window [interval 20 30; interval 5 10; interval 0 4] 10 15 = Ok df /\
    row_of (interval 5 10) ∈ rows df.
Proof.
  assert (interval 5 10 ∈ [interval 20 30; interval 5 10; interval 0 4]) as Hin
    by (apply elem_of_cons; right; apply elem_of_cons; by left).
  assert (5 <= 15 /\ 10 >= 10) as Hov by lia.
  split; [exact Hin|]. split; [exact Hov|].
  exact (proj1 (C8_overlap_selection
                  [interval 20 30; interval 5 10; interval 0 4] 10 15)
               (interval 5 10) Hin Hov).
Defined.

(** C5 (what the code does): when no record overlaps the month, and so also
    for an empty list of records, the frame is built from the empty list and
    has no column; sorting it by ["in_progress_start"] raises [KeyError].
    The extraction over zero issues does return two empty lists. *)
Theorem C5_no_overlap_raises wip_records target_month :
  Forall
    (fun record =>
       overlaps record (start_time target_month) (end_time target_month) = false)
    wip_records ->
  get_issues_in_progress_in_month wip_records target_month =
    Raise (KeyError "in_progress_start"%string) /\
  forall end_date, parse_wip_ranges [] end_date = Ok ([], []).
Proof.
  intros H. split; [|reflexivity].
  unfold get_issues_in_progress_in_month, issues_in_window.
  replace (matched_rows wip_records (start_time target_month)
             (end_time target_month)) with (@nil row); [reflexivity|].
  induction H as [|r recs Hr _ IH]; simpl; [reflexivity|].
  by rewrite Hr.
Qed.

Lemma C5_no_overlap_raises_witness :
  Forall
    (fun record =>
       overlaps record (start_time (Month 2025 3)) (end_time (Month 2025 3))
       = false)
    [february] /\
  get_issues_in_progress_in_month [february] (Month 2025 3) =
    Raise (KeyError "in_progress_start"%string) /\
  forall end_date, parse_wip_ranges [] end_date = Ok ([], []).
Proof.
  assert (Forall
            (fun record =>
               overlaps record (start_time (Month 2025 3))
                 (end_time (Month 2025 3)) = false)
            [february]) as H
    by (constructor; [vm_compute; reflexivity | constructor]).
  split; [exact H|].
  exact (C5_no_overlap_raises [february] (Month 2025 3) H).
Defined.

(** ** The daily count *)

Lemma incr_at_map (f : Timestamp -> Z) day index :
  incr_at day (map (fun d => (d, f d)) index) =
  map (fun d => (d, if d =? day then f d + 1 else f d)) index.
Proof.
  unfold incr_at. rewrite map_map. apply map_ext. intros d. simpl.
  by destruct (d =? day).
Qed.

Lemma occurrences_cons x l d :
  occurrences (x :: l) d = (if x =? d then 1 else 0) + occurrences l d.
Proof.
  unfold occurrences. rewrite filter_cons.
  destruct (Z.eqb_spec x d) as [->|Hne].
  - rewrite decide_True by done. simpl length. lia.
  - rewrite decide_False by done. lia.
Qed.

(** One record adds to each day of the series the number of covered
    occurrences of that day in the index it walks. *)
Lemma count_record_map (f : Timestamp -> Z) days index record :
  fold_left
    (fun counts day => if covers record day then incr_at day counts else counts)
    days (map (fun d => (d, f d)) index) =
  map (fun d => (d, f d + (if covers record d then occurrences days d else 0)))
      index.
Proof.
  revert f. induction days as [|day days IH]; intros f; cbn [fold_left].
  - apply map_ext. intros d. unfold occurrences. simpl.
    destruct (covers record d); f_equal; lia.
  - destruct (covers record day) eqn:Hday.
    + rewrite incr_at_map, IH. apply map_ext. intros d.
      rewrite occurrences_cons. rewrite (Z.eqb_sym day d).
      destruct (Z.eqb_spec d day) as [->|Hne].
      * rewrite Hday. f_equal. lia.
      * destruct (covers record d); f_equal; lia.
    + rewrite IH. apply map_ext. intros d.
      rewrite occurrences_cons.
      destruct (Z.eqb_spec day d) as [->|Hne].
      * rewrite Hday. reflexivity.
      * reflexivity.
Qed.

Lemma occurrences_not_in l d : d ∉ l -> occurrences l d = 0.
Proof.
  induction l as [|x l IH]; intros Hd; [reflexivity|].
  rewrite occurrences_cons. apply not_elem_of_cons in Hd as [Hne Hd].
  rewrite IH by done. destruct (Z.eqb_spec x d); [congruence|reflexivity].
Qed.

Lemma occurrences_NoDup index d :
  NoDup index -> d ∈ index -> occurrences index d = 1.
Proof.
  intros Hnd. induction Hnd as [|x l Hx Hnd IH]; intros Hin.
  - by apply elem_of_nil in Hin.
  - rewrite occurrences_cons. apply elem_of_cons in Hin as [->|Hin].
    + rewrite Z.eqb_refl. by rewrite occurrences_not_in.
    + destruct (Z.eqb_spec x d) as [->|Hne]; [done|]. by rewrite IH.
Qed.

Lemma count_record_index (f : Timestamp -> Z) index record :
  NoDup index ->
  count_record index (map (fun d => (d, f d)) index) record =
  map (fun d => (d, f d + (if covers record d then 1 else 0))) index.
Proof.
  intros Hnd. unfold count_record. rewrite count_record_map.
  apply map_ext_in. intros d Hin. apply list_elem_of_In in Hin.
  by rewrite (occurrences_NoDup index d Hnd Hin).
Qed.

Lemma covering_cons record wip_records d :
  covering (record :: wip_records) d =
  (if covers record d then 1 else 0) + covering wip_records d.
Proof.
  unfold covering. rewrite filter_cons. destruct (covers record d).
  - rewrite decide_True by done. simpl length. lia.
  - rewrite decide_False by done. lia.
Qed.

(** Over an index of distinct days, each day is paired with the number of
    records that contain it. *)
Lemma daily_wip_counts_spec wip_records index :
  NoDup index ->
  daily_wip_counts wip_records index =
  map (fun d => (d, covering wip_records d)) index.
Proof.
  intros Hnd. unfold daily_wip_counts, zero_series.
  enough (forall f,
             fold_left (count_record index) wip_records
               (map (fun d => (d, f d)) index) =
             map (fun d => (d, f d + covering wip_records d)) index) as H.
  { rewrite (H (fun _ => 0)). apply map_ext. intros d. f_equal. }
  induction wip_records as [|r recs IH]; intros f; cbn [fold_left].
  - apply map_ext. intros d. unfold covering. simpl. f_equal. lia.
  - rewrite count_record_index by done. rewrite IH.
    apply map_ext. intros d. rewrite covering_cons. f_equal. lia.
Qed.

Lemma date_range_NoDup start end_ : NoDup (date_range start end_).
Proof.
  unfold date_range. apply NoDup_fmap_2; [|apply NoDup_seq].
  intros k1 k2. unfold Timedelta_days, ns_per_day. lia.
Qed.

(** A range of [n] whole days has [n + 1] daily instants. *)
Lemma date_range_lookback end_ n :
  0 <= n ->
  date_range (end_ - Timedelta_days n) end_ =
  map (fun k => end_ - Timedelta_days (n - Z.of_nat k))
      (seq 0 (Z.to_nat n + 1)).
Proof.
  intros Hn. unfold date_range.
  replace ((end_ - (end_ - Timedelta_days n)) / ns_per_day + 1) with (n + 1).
  - rewrite Z2Nat.inj_add by lia. apply map_ext. intros k.
    unfold Timedelta_days. lia.
  - unfold Timedelta_days.
    replace (end_ - (end_ - n * ns_per_day)) with (n * ns_per_day) by lia.
    rewrite Z.div_mul; [lia|]. unfold ns_per_day. lia.
Qed.

Lemma covers_spec record d :
  covers record d = true <-> r_start record <= d <= r_end record.
Proof. unfold covers. rewrite andb_true_iff, !Z.leb_le. done. Qed.

Lemma sum_snoc (l : list Z) (x : Z) :
  fold_right Z.add 0 (l ++ [x]) = fold_right Z.add 0 l + x.
Proof. induction l as [|y l IH]; simpl; [lia|]. rewrite IH. lia. Qed.

(** The number of indices below [n] that lie in [[a, b]]. *)
Lemma sum_indicator (g : nat -> bool) (a b : Z) (n : nat) :
  0 <= a ->
  (forall k : nat, g k = true <-> a <= Z.of_nat k <= b) ->
  fold_right Z.add 0 (map (fun k => if g k then 1 else 0) (seq 0 n)) =
  Z.max 0 (Z.min (b + 1) (Z.of_nat n) - a).
Proof.
  intros Ha Hg. induction n as [|n IH]; [simpl; lia|].
  rewrite seq_S, map_app. cbn [map Nat.add]. rewrite sum_snoc, IH.
  destruct (g n) eqn:Hn.
  - apply Hg in Hn. lia.
  - assert (~ (a <= Z.of_nat n <= b)) as Hn'.
    { intros H. apply Hg in H. congruence. }
    lia.
Qed.

(** The counts of a single record sum to the number of daily instants in
    its interval. *)
Lemma total_single record (day_at : nat -> Timestamp) (a b : Z) (n : nat) :
  0 <= a ->
  (forall k : nat,
     r_start record <= day_at k <= r_end record <-> a <= Z.of_nat k <= b) ->
  total (map (fun k => (day_at k, covering [record] (day_at k))) (seq 0 n)) =
  Z.max 0 (Z.min (b + 1) (Z.of_nat n) - a).
Proof.
  intros Ha H. unfold total. rewrite map_map. simpl.
  rewrite <- (sum_indicator (fun k => covers record (day_at k)) a b n Ha).
  - f_equal. apply map_ext. intros k. rewrite covering_cons.
    unfold covering. simpl. destruct (covers record (day_at k)); lia.
  - intros k. rewrite covers_spec. apply H.
Qed.

(** C3 (the claim fails): [three_days] spans the three calendar days 10,
    11 and 12, inside the range from day 8 to day 13 of a census taken on
    day 13; it is counted on days 10 and 11 only, and the counts sum to 2. *)
Lemma C3_counterexample :
  days (r_end three_days) - days (r_start three_days) + 1 = 3 /\
  plot_daily_wip_time_series (day 13 + 5) [three_days] 5 =
    [(sampled 8, 0); (sampled 9, 0); (sampled 10, 1); (sampled 11, 1);
     (sampled 12, 0); (sampled 13, 0)] /\
  total (plot_daily_wip_time_series (day 13 + 5) [three_days] 5) = 2.
Proof. repeat split; vm_compute; reflexivity. Qed.

(** C3 (amended): over a lookback of [n] days the census has one entry for
    each of the [n + 1] days up to today, each taken at 23:59:59.999999 UTC
    of its day; the count of a day is the number of intervals that contain
    that instant, [start <= instant <= end].  The table view computes the
    same series.  A single interval that starts within the day before the
    instant of day [i] and ends from the instant of day [i + 2] up to before
    that of day [i + 3] has counts that sum to 3. *)
Theorem C3_daily_counts now wip_records days_lookback :
  0 <= days_lookback ->
  let day_at k := end_of_day now - Timedelta_days (days_lookback - k) in
  plot_daily_wip_time_series now wip_records days_lookback =
    map (fun k : nat =>
           (day_at (Z.of_nat k), covering wip_records (day_at (Z.of_nat k))))
        (seq 0 (Z.to_nat days_lookback + 1)) /\
  show_daily_wip_table now wip_records days_lookback =
    plot_daily_wip_time_series now wip_records days_lookback /\
  (forall record i,
     0 <= i -> i + 2 <= days_lookback ->
     day_at (i - 1) < r_start record <= day_at i ->
     day_at (i + 2) <= r_end record < day_at (i + 3) ->
     total (plot_daily_wip_time_series now [record] days_lookback) = 3).
Proof.
  intros Hn day_at.
  assert (forall recs,
             plot_daily_wip_time_series now recs days_lookback =
             map (fun k : nat =>
                    (day_at (Z.of_nat k), covering recs (day_at (Z.of_nat k))))
                 (seq 0 (Z.to_nat days_lookback + 1))) as Hseries.
  { intros recs. unfold plot_daily_wip_time_series. simpl.
    rewrite daily_wip_counts_spec by apply date_range_NoDup.
    rewrite date_range_lookback by done. by rewrite map_map. }
  split; [apply Hseries|]. split; [reflexivity|].
  intros r i Hi Hi2 Hstart Hend. rewrite Hseries.
  rewrite (total_single r (fun k => day_at (Z.of_nat k)) i (i + 2)); [lia|lia|].
  intros k. subst day_at. simpl in *.
  unfold Timedelta_days, ns_per_day in *. lia.
Qed.

Lemma C3_daily_counts_witness :
  0 <= 5 /\
  total (plot_daily_wip_time_series (day 13 + 5)
           [interval (sampled 10) (sampled 12)] 5) = 3.
Proof.
  split; [lia|].
  destruct (C3_daily_counts (day 13 + 5) [interval (sampled 10) (sampled 12)] 5)
    as (_ & _ & H); [lia|].
  apply (H _ 2); vm_compute; repeat split; congruence.
Defined.

(** ** The clock *)

(** C6 (the claim fails): the census has no parameter for the end of its
    range.  With the same records and the same lookback, a call on day 13
    and a call on day 14 return different series. *)
Lemma C6_counterexample :
  plot_daily_wip_time_series (day 13 + 5) [three_days] 5 <>
  plot_daily_wip_time_series (day 14 + 5) [three_days] 5.
Proof. vm_compute. discriminate. Qed.

(** C6 (amended): the extraction and the window query are functions of
    their arguments, the observation end and the month among them.  The
    census reads the clock, and depends on it through the UTC date only: two
    calls on the same date with the same records and lookback return the
    same series. *)
Theorem C6_census_depends_on_date now1 now2 wip_records days_lookback :
  days now1 = days now2 ->
  plot_daily_wip_time_series now1 wip_records days_lookback =
    plot_daily_wip_time_series now2 wip_records days_lookback /\
  show_daily_wip_table now1 wip_records days_lookback =
    show_daily_wip_table now2 wip_records days_lookback /\
  (forall issues end_date r1 r2,
     parse_wip_ranges issues end_date = r1 ->
     parse_wip_ranges issues end_date = r2 -> r1 = r2) /\
  (forall records target_month r1 r2,
     get_issues_in_progress_in_month records target_month = r1 ->
     get_issues_in_progress_in_month records target_month = r2 -> r1 = r2).
Proof.
  unfold days. intros Hday.
  assert (end_of_day now1 = end_of_day now2) as Heod
    by (unfold end_of_day; by rewrite Hday).
  unfold plot_daily_wip_time_series, show_daily_wip_table. rewrite Heod.
  repeat split; congruence.
Qed.

Lemma C6_census_depends_on_date_witness :
  days (day 13 + 5) = days (day 13 + 77) /\
  plot_daily_wip_time_series (day 13 + 5) [three_days] 5 =
    plot_daily_wip_time_series (day 13 + 77) [three_days] 5.
Proof.
  assert (days (day 13 + 5) = days (day 13 + 77)) as H by reflexivity.
  split; [exact H|].
  exact (proj1 (C6_census_depends_on_date _ _ [three_days] 5 H)).
Defined.

(** * Further properties *)

(** ** The intervals of one issue *)




Lemma parse_single iss end_date recs missing :
  parse_wip_ranges [iss] end_date = Ok (recs, missing) ->
  exists b,
    process_issue end_date empty_batch iss = Ok b /\
    recs = wip_records b /\ missing = missing_details b.
Proof.
  unfold parse_wip_ranges. simpl. intros H.
  apply bind_Ok in H as (b & Hb & H). apply bind_Ok in Hb as (b1 & Hb1 & Hb).
  injection Hb as <-. injection H as <- <-. by exists b1.
Qed.




(** ** Where the records come from *)

Lemma scan_item_from iss (T : list Timestamp) t recs w it :
  t ∈ T ->
  Forall (fun r => belongs_to iss r /\ r_start r ∈ T /\ r_end r ∈ T) recs ->
  (forall s, in_progress_start w = Some s -> s ∈ T) ->
  Forall (fun r => belongs_to iss r /\ r_start r ∈ T /\ r_end r ∈ T)
         (fst (scan_item iss t (recs, w) it)) /\
  (forall s, in_progress_start (snd (scan_item iss t (recs, w) it)) = Some s ->
             s ∈ T).
Proof.
  intros Ht Hrecs Hs. unfold scan_item.
  destruct (bool_decide (field it = Some "status"%string)); [|done].
  destruct (bool_decide (toString it = Some tracked)
            && bool_decide (in_progress_start w = None)); simpl.
  { split; [done|]. by intros s [= <-]. }
  destruct (in_progress_start w) as [s0|] eqn:Hw; simpl;
    [|split; [done|]; intros; congruence].
  destruct (bool_decide (fromString it = Some tracked)); simpl.
  - split; [|discriminate]. apply Forall_app. split; [done|].
    apply Forall_singleton. unfold belongs_to. simpl. split; [done|].
    split; [by apply Hs|done].
  - split; [done|]. intros s Hs'. apply Hs. congruence.
Qed.

Lemma scan_entries_from iss (T : list Timestamp) entries recs w :
  Forall (fun k => instant (fst k) ∈ T) entries ->
  Forall (fun r => belongs_to iss r /\ r_start r ∈ T /\ r_end r ∈ T) recs ->
  (forall s, in_progress_start w = Some s -> s ∈ T) ->
  Forall (fun r => belongs_to iss r /\ r_start r ∈ T /\ r_end r ∈ T)
         (fst (fold_left (scan_entry iss) entries (recs, w))) /\
  (forall s,
     in_progress_start (snd (fold_left (scan_entry iss) entries (recs, w)))
       = Some s -> s ∈ T).
Proof.
  intros HT. revert recs w.
  induction HT as [|[c h] entries Hc _ IH]; intros recs w Hrecs Hs;
    cbn [fold_left]; [done|].
  simpl in Hc.
  assert (Forall (fun r => belongs_to iss r /\ r_start r ∈ T /\ r_end r ∈ T)
                 (fst (scan_entry iss (recs, w) (c, h))) /\
          (forall s, in_progress_start (snd (scan_entry iss (recs, w) (c, h)))
                     = Some s -> s ∈ T)) as [H1 H2].
  { unfold scan_entry. simpl. generalize (items h) as its. intros its.
    revert recs w Hrecs Hs.
    induction its as [|it its IHi]; intros recs w Hrecs Hs; cbn [fold_left];
      [done|].
    destruct (scan_item_from iss T (instant c) recs w it Hc Hrecs Hs)
      as [H1 H2].
    destruct (scan_item iss (instant c) (recs, w) it) as [r1 w1].
    by apply IHi. }
  destruct (scan_entry iss (recs, w) (c, h)) as [r1 w1]. by apply IH.
Qed.

Lemma sorted_by_created_instants l entries :
  sorted_by_created l = Ok entries ->
  Forall (fun k => instant (fst k) ∈ instants l) entries.
Proof.
  unfold sorted_by_created. intros H.
  apply bind_Ok in H as (ks & Hks & H). injection H as <-.
  destruct (created_keys_spec _ _ Hks) as (_ & Hfst & _).
  apply (Permutation_Forall (Permutation_sym (sort_by_key_perm text_lt ks))).
  apply Forall_forall. intros k Hk. unfold instants. rewrite <- Hfst.
  rewrite map_map. apply (list_elem_of_fmap_2 (fun x => instant (fst x))), Hk.
Qed.

(** The closed intervals of an issue carry its metadata, and start and end
    at instants of its changelog. *)
Lemma closed_intervals_from iss entries :
  sorted_by_created (histories iss) = Ok entries ->
  Forall
    (fun r => belongs_to iss r /\
              r_start r ∈ instants (histories iss) /\
              r_end r ∈ instants (histories iss))
    (fst (scan_changelog iss [] entries)) /\
  (forall s,
     in_progress_start (snd (scan_changelog iss [] entries)) = Some s ->
     s ∈ instants (histories iss)).
Proof.
  intros Hs. apply scan_entries_from; [|constructor|discriminate].
  by apply sorted_by_created_instants.
Qed.

Lemma process_issue_seen end_date b iss b' :
  process_issue end_date b iss = Ok b' ->
  seen_keys b' ⊆ {[ key iss ]} ∪ seen_keys b.
Proof.
  intros H. apply process_issue_Ok in H as (entries & _ & H). simpl in H.
  destruct H as [(_ & _ & -> & _)|(c & _ & _ & _ & -> & _)]; [|done].
  case_bool_decide; set_solver.
Qed.

(** Every record of the output carries the key, the summary and the
    assignee of one issue of the batch, and ends either at the observation
    end or at an instant of that issue's changelog; every entry of
    [missing_details] names an issue of the batch that is in the tracked
    status. *)
Lemma parse_wip_ranges_from issues end_date recs missing :
  parse_wip_ranges issues end_date = Ok (recs, missing) ->
  Forall
    (fun r =>
       exists iss,
         iss ∈ issues /\ belongs_to iss r /\
         (r_end r = end_date \/ r_end r ∈ instants (histories iss)))
    recs /\
  Forall
    (fun m =>
       exists iss,
         iss ∈ issues /\ m = (key iss, summary iss) /\
         status_name iss = Some tracked)
    missing.
Proof.
  unfold parse_wip_ranges. intros H.
  apply bind_Ok in H as (b & Hrun & H). injection H as <- <-.
  enough (forall b0,
             for_each (process_issue end_date) issues b0 = Ok b ->
             exists new_recs new_missing,
               wip_records b = wip_records b0 ++ new_recs /\
               missing_details b = missing_details b0 ++ new_missing /\
               Forall
                 (fun r =>
                    exists iss,
                      iss ∈ issues /\ belongs_to iss r /\
                      (r_end r = end_date \/ r_end r ∈ instants (histories iss)))
                 new_recs /\
               Forall
                 (fun m =>
                    exists iss,
                      iss ∈ issues /\ m = (key iss, summary iss) /\
                      status_name iss = Some tracked)
                 new_missing) as Hgen.
  { destruct (Hgen _ Hrun) as (nr & nm & -> & -> & H1 & H2). done. }
  clear Hrun. induction issues as [|iss issues IH]; intros b0 Hrun;
    simpl in Hrun.
  - injection Hrun as <-. exists [], []. rewrite !app_nil_r. done.
  - apply bind_Ok in Hrun as (b1 & Hstep & Hrun).
    destruct (IH _ Hrun) as (nr & nm & Hr & Hm & H1 & H2).
    apply process_issue_Ok in Hstep as (entries & Hs & Hstep). simpl in Hstep.
    destruct (closed_intervals_from iss entries Hs) as [Hclosed _].
    assert (Forall
              (fun r =>
                 exists i,
                   i ∈ iss :: issues /\ belongs_to i r /\
                   (r_end r = end_date \/ r_end r ∈ instants (histories i)))
              (fst (scan_changelog iss [] entries))) as Hclosed'.
    { eapply Forall_impl; [exact Hclosed|]. intros r (Hb & _ & He).
      exists iss. split; [by left|]. split; [done|by right]. }
    assert (Forall
              (fun r =>
                 exists i,
                   i ∈ iss :: issues /\ belongs_to i r /\
                   (r_end r = end_date \/ r_end r ∈ instants (histories i)))
              nr) as H1'.
    { eapply Forall_impl; [exact H1|]. intros r (i & Hi & Hb).
      exists i. split; [by right|done]. }
    assert (Forall
              (fun m =>
                 exists i,
                   i ∈ iss :: issues /\ m = (key i, summary i) /\
                   status_name i = Some tracked)
              nm) as H2'.
    { eapply Forall_impl; [exact H2|]. intros m (i & Hi & Hb).
      exists i. split; [by right|done]. }
    destruct Hstep as [(Hr1 & Hm1 & _)|(c & _ & Hr1 & Hm1 & _ & Hst & _)].
    + exists (fst (scan_changelog iss [] entries) ++
              open_interval iss end_date (snd (scan_changelog iss [] entries))
              ++ nr), nm.
      rewrite Hr, Hr1, Hm, Hm1, <- !app_assoc. split; [done|]. split; [done|].
      split; [|done]. rewrite !Forall_app. split; [done|]. split; [|done].
      destruct (open_interval_cases iss end_date
                  (snd (scan_changelog iss [] entries)))
        as [->|(s & _ & _ & _ & ->)]; [constructor|].
      apply Forall_singleton. exists iss. split; [by left|].
      split; [done|by left].
    + exists (fst (scan_changelog iss [] entries) ++
              [fallback_interval iss end_date c] ++ nr),
             ((key iss, summary iss) :: nm).
      rewrite Hr, Hr1, Hm, Hm1, <- !app_assoc. split; [done|]. split; [done|].
      split.
      * rewrite !Forall_app. split; [done|]. split; [|done].
        apply Forall_singleton. exists iss. split; [by left|].
        split; [done|by left].
      * constructor; [|done]. exists iss. split; [by left|done].
Qed.

(** X2: every record of the output carries the key, the summary and the
    assignee of one issue of the batch, and ends either at the observation
    end or at an instant of that issue's changelog; every entry of
    [missing_details] names an issue of the batch that is in the tracked
    status. *)
Theorem X2_records_belong_to_issues issues end_date recs missing :
  parse_wip_ranges issues end_date = Ok (recs, missing) ->
  Forall
    (fun r =>
       exists iss,
         iss ∈ issues /\ belongs_to iss r /\
         (r_end r = end_date \/ r_end r ∈ instants (histories iss)))
    recs /\
  Forall
    (fun m =>
       exists iss,
         iss ∈ issues /\ m = (key iss, summary iss) /\
         status_name iss = Some tracked)
    missing.
Proof. apply parse_wip_ranges_from. Qed.

Lemma X2_records_belong_to_issues_witness :
  parse_wip_ranges [late; ongoing; ongoing_again; late] (day 200) =
    Ok ([fallback_interval late (day 200) (day 100);
         record_of ongoing (day 1) (day 200)],
        [(key late, summary late)]) /\
  Forall
    (fun r =>
       exists iss,
         iss ∈ [late; ongoing; ongoing_again; late] /\ belongs_to iss r /\
         (r_end r = day 200 \/ r_end r ∈ instants (histories iss)))
    [fallback_interval late (day 200) (day 100);
     record_of ongoing (day 1) (day 200)] /\
  Forall
    (fun m =>
       exists iss,
         iss ∈ [late; ongoing; ongoing_again; late] /\
         m = (key iss, summary iss) /\
         status_name iss = Some tracked)
    [(key late, summary late)].
Proof.
  assert (parse_wip_ranges [late; ongoing; ongoing_again; late] (day 200) =
            Ok ([fallback_interval late (day 200) (day 100);
                 record_of ongoing (day 1) (day 200)],
                [(key late, summary late)])) as H
    by (vm_compute; reflexivity).
  split; [exact H|].
  exact (X2_records_belong_to_issues _ _ _ _ H).
Defined.

(** ** Issues with distinct keys *)

Lemma append_batch_assoc b1 b2 b3 :
  append_batch (append_batch b1 b2) b3 = append_batch b1 (append_batch b2 b3).
Proof.
  unfold append_batch. simpl. rewrite <- !app_assoc. f_equal. set_solver.
Qed.

(** A turn of the loop for a key that is not in [seen_keys] adds to the
    accumulators what it adds to empty ones. *)
Lemma process_issue_frame end_date b iss :
  key iss ∉ seen_keys b ->
  process_issue end_date b iss =
  b1 ← process_issue end_date empty_batch iss; Ok (append_batch b b1).
Proof.
  intros Hk. unfold process_issue.
  destruct (sorted_by_created (histories iss)) as [entries|err]; simpl;
    [|reflexivity].
  rewrite (scan_changelog_prefix iss (wip_records b)).
  destruct (scan_changelog iss [] entries) as [closed w]. simpl.
  rewrite !still_in_progress_spec. unfold fallback, append_batch. simpl.
  destruct (bool_decide (status_name iss = Some tracked)); simpl.
  - destruct (bool_decide_reflect (open_interval iss end_date w = [])) as [Ho|Ho].
    + rewrite (bool_decide_eq_true_2 (key iss ∉ seen_keys b)) by done.
      rewrite (bool_decide_eq_true_2 (key iss ∉ (∅ : gset (option string))))
        by set_solver.
      destruct (issue_created iss) as [c|]; simpl; [|reflexivity].
      rewrite Ho, !app_nil_r, <- app_assoc. do 2 f_equal. set_solver.
    + rewrite (bool_decide_eq_false_2 (key iss ∉ {[key iss]} ∪ seen_keys b))
        by set_solver.
      rewrite (bool_decide_eq_false_2
                 (key iss ∉ {[key iss]} ∪ (∅ : gset (option string))))
        by set_solver.
      simpl. rewrite app_nil_r, <- app_assoc. do 2 f_equal. set_solver.
  - rewrite <- app_assoc, app_nil_r. do 2 f_equal.
    case_bool_decide; set_solver.
Qed.

Lemma for_each_seen end_date issues b b' :
  for_each (process_issue end_date) issues b = Ok b' ->
  forall k, k ∈ seen_keys b' -> k ∈ seen_keys b \/ k ∈ map key issues.
Proof.
  revert b. induction issues as [|iss issues IH]; intros b H k Hk; simpl in H.
  - injection H as <-. by left.
  - apply bind_Ok in H as (b1 & Hstep & H).
    destruct (IH _ H k Hk) as [Hk1|Hk1].
    + apply process_issue_seen in Hstep.
      apply Hstep in Hk1. apply elem_of_union in Hk1 as [Hk1|Hk1].
      * apply elem_of_singleton in Hk1 as ->. right. simpl. by left.
      * by left.
    + right. simpl. by right.
Qed.

Lemma for_each_frame end_date issues b :
  NoDup (map key issues) ->
  (forall k, k ∈ map key issues -> k ∉ seen_keys b) ->
  for_each (process_issue end_date) issues b =
  b1 ← for_each (process_issue end_date) issues empty_batch;
  Ok (append_batch b b1).
Proof.
  revert b. induction issues as [|iss issues IH]; intros b Hnd Hk; simpl.
  - unfold append_batch. simpl. rewrite !app_nil_r.
    destruct b as [r s m]. simpl. do 2 f_equal. set_solver.
  - simpl in Hnd. apply NoDup_cons in Hnd as [Hiss Hnd].
    rewrite (process_issue_frame end_date b iss) by (apply Hk; simpl; by left).
    destruct (process_issue end_date empty_batch iss) as [b1|err] eqn:Hstep;
      simpl; [|reflexivity].
    pose proof (process_issue_seen _ _ _ _ Hstep) as Hseen. simpl in Hseen.
    rewrite (IH (append_batch b b1)); [|done|].
    + rewrite (IH b1); [|done|].
      * destruct (for_each (process_issue end_date) issues empty_batch)
          as [b2|err]; simpl; [|reflexivity].
        by rewrite append_batch_assoc.
      * intros k Hkin Hks. apply Hseen in Hks. set_solver.
    + intros k Hkin. unfold append_batch. simpl. intros Hks.
      apply elem_of_union in Hks as [Hks|Hks].
      * apply (Hk k); [simpl; by right|done].
      * apply Hseen in Hks. set_solver.
Qed.

(** X3: issues with pairwise distinct keys do not interact: extracting a
    batch gives the records and the diagnostic entries of its first part
    followed by those of its second part, and raises what the first of the
    two that raises does. *)
Theorem X3_distinct_keys_independent l1 l2 end_date :
  NoDup (map key (l1 ++ l2)) ->
  parse_wip_ranges (l1 ++ l2) end_date =
  append_results (parse_wip_ranges l1 end_date) (parse_wip_ranges l2 end_date).
Proof.
  intros Hnd. unfold parse_wip_ranges, append_results.
  rewrite for_each_app. rewrite map_app in Hnd.
  apply NoDup_app in Hnd as (Hnd1 & Hdisj & Hnd2).
  destruct (for_each (process_issue end_date) l1 empty_batch) as [b1|err]
    eqn:Hrun1; simpl; [|reflexivity].
  rewrite (for_each_frame end_date l2 b1); [|done|].
  - destruct (for_each (process_issue end_date) l2 empty_batch) as [b2|err];
      simpl; reflexivity.
  - intros k Hk2 Hk1.
    destruct (for_each_seen _ _ _ _ Hrun1 k Hk1) as [Hk|Hk]; [set_solver|].
    by apply (Hdisj k).
Qed.

Lemma X3_distinct_keys_independent_witness :
  NoDup (map key ([finished; late] ++ [ongoing; idle])) /\
  parse_wip_ranges ([finished; late] ++ [ongoing; idle]) (day 200) =
  append_results (parse_wip_ranges [finished; late] (day 200))
                 (parse_wip_ranges [ongoing; idle] (day 200)).
Proof.
  assert (NoDup (map key ([finished; late] ++ [ongoing; idle]))) as H.
  { simpl. repeat (apply NoDup_cons; split; [set_solver|]). constructor. }
  split; [exact H|].
  exact (X3_distinct_keys_independent [finished; late] [ongoing; idle]
           (day 200) H).
Defined.

(** ** The current status *)

(** X4: an issue in the tracked status whose key is new to the batch gets,
    after its closed intervals, exactly one more record, which ends at the
    observation end: the still-open interval or else the fallback.  Its key
    is in [seen_keys] afterwards. *)
Theorem X4_tracked_issue_reaches_end end_date b iss b' :
  status_name iss = Some tracked ->
  key iss ∉ seen_keys b ->
  process_issue end_date b iss = Ok b' ->
  exists entries current,
    sorted_by_created (histories iss) = Ok entries /\
    wip_records b' =
      wip_records b ++ fst (scan_changelog iss [] entries) ++ [current] /\
    r_end current = end_date /\
    belongs_to iss current /\
    key iss ∈ seen_keys b'.
Proof.
  intros Hst Hk H. apply process_issue_Ok in H as (entries & Hs & H).
  exists entries. simpl in H.
  destruct H as [(Hr & _ & Hseen & Hno)|(c & _ & Hr & _ & Hseen & _)].
  - destruct (open_interval_cases iss end_date
                (snd (scan_changelog iss [] entries)))
      as [Hop|(s & _ & _ & _ & Hop)].
    + exfalso. apply Hno. done.
    + exists (record_of iss s end_date). rewrite Hop in Hr, Hseen.
      rewrite bool_decide_eq_false_2 in Hseen by done.
      split; [done|]. split; [done|]. split; [done|]. split; [done|].
      rewrite Hseen. set_solver.
  - exists (fallback_interval iss end_date c).
    split; [done|]. split; [done|]. split; [done|]. split; [done|].
    rewrite Hseen. set_solver.
Qed.

Lemma X4_tracked_issue_reaches_end_witness :
  status_name returned = Some tracked /\
  (key returned ∉ seen_keys empty_batch) /\
  process_issue (day 4) empty_batch returned = Ok returned_batch /\
  exists entries current,
    sorted_by_created (histories returned) = Ok entries /\
    wip_records returned_batch =
      wip_records empty_batch ++ fst (scan_changelog returned [] entries)
      ++ [current] /\
    r_end current = day 4 /\
    belongs_to returned current /\
    key returned ∈ seen_keys returned_batch.
Proof.
  assert (status_name returned = Some tracked) as H1 by reflexivity.
  assert (key returned ∉ seen_keys empty_batch) as H2 by set_solver.
  assert (process_issue (day 4) empty_batch returned = Ok returned_batch) as H3
    by (vm_compute; reflexivity).
  split; [exact H1|]. split; [exact H2|]. split; [exact H3|].
  exact (X4_tracked_issue_reaches_end (day 4) empty_batch returned
           returned_batch H1 H2 H3).
Defined.



(** ** The table of a month *)

Lemma insert_sorted_by_start (x : Z * row) (l : list (Z * row)) :
  StronglySorted (fun a b => fst a <= fst b) l ->
  StronglySorted (fun a b => fst a <= fst b) (insert_sorted Z.ltb x l).
Proof.
  induction 1 as [|y l Hs IH Hy]; simpl.
  - repeat constructor.
  - destruct (Z.ltb_spec (fst y) (fst x)) as [Hlt|Hle].
    + constructor; [exact IH|].
      rewrite insert_sorted_perm. constructor; [lia|exact Hy].
    + constructor; [by constructor|].
      constructor; [exact Hle|].
      eapply Forall_impl; [exact Hy|]. simpl. intros z Hz. lia.
Qed.

Lemma sort_by_start_sorted (l : list row) :
  StronglySorted
    (fun a b => col_in_progress_start a <= col_in_progress_start b)
    (map snd (sort_by_key Z.ltb
                (map (fun r => (col_in_progress_start r, r)) l))).
Proof.
  assert (StronglySorted (fun a b : Z * row => fst a <= fst b)
            (sort_by_key Z.ltb (map (fun r => (col_in_progress_start r, r)) l)))
    as Hsorted.
  { induction l as [|r l IH]; simpl; [constructor|].
    by apply insert_sorted_by_start. }
  assert (Forall (fun k : Z * row => fst k = col_in_progress_start (snd k))
            (sort_by_key Z.ltb (map (fun r => (col_in_progress_start r, r)) l)))
    as Hkeys.
  { apply (Permutation_Forall (Permutation_sym (sort_by_key_perm Z.ltb _))).
    apply Forall_forall. intros k Hk.
    apply list_elem_of_fmap in Hk as (r & -> & _). done. }
  revert Hsorted Hkeys.
  generalize (sort_by_key Z.ltb (map (fun r => (col_in_progress_start r, r)) l)).
  intros ks Hsorted. induction Hsorted as [|k ks Hs IH Hk]; intros Hkeys; simpl.
  - constructor.
  - apply Forall_cons in Hkeys as [Hk0 Hkeys]. constructor; [by apply IH|].
    apply Forall_forall. intros rw Hrw.
    apply list_elem_of_fmap in Hrw as (k' & -> & Hk').
    rewrite Forall_forall in Hk, Hkeys.
    rewrite <- Hk0, <- (Hkeys k' Hk'). by apply Hk.
Qed.

Lemma matched_rows_filter wip_records window_start window_end :
  matched_rows wip_records window_start window_end =
  map row_of
      (filter (fun r => overlaps r window_start window_end = true) wip_records).
Proof.
  induction wip_records as [|r recs IH]; simpl; [reflexivity|].
  rewrite filter_cons. destruct (overlaps r window_start window_end) eqn:Hr.
  - rewrite decide_True by done. simpl. by rewrite IH.
  - rewrite decide_False by (by intros ?). done.
Qed.

(** X6: when the query for a month returns, its rows are in ascending order
    of [in_progress_start]; there is one row for each record that overlaps
    the month, also when several records have the same key; and
    [days_in_progress] is the number of whole days from start to end,
    rounded down. *)
Theorem X6_month_table target_month wip_records df :
  get_issues_in_progress_in_month wip_records target_month = Ok df ->
  StronglySorted
    (fun a b => col_in_progress_start a <= col_in_progress_start b) (rows df) /\
  Permutation (rows df)
    (map row_of
       (filter
          (fun r =>
             overlaps r (start_time target_month) (end_time target_month)
             = true)
          wip_records)) /\
  Forall
    (fun rw =>
       col_days_in_progress rw * ns_per_day
         <= col_in_progress_end rw - col_in_progress_start rw
         < (col_days_in_progress rw + 1) * ns_per_day)
    (rows df).
Proof.
  unfold get_issues_in_progress_in_month. intros H.
  assert (Permutation (rows df)
            (matched_rows wip_records (start_time target_month)
               (end_time target_month)) /\
          StronglySorted
            (fun a b => col_in_progress_start a <= col_in_progress_start b)
            (rows df)) as [Hperm Hsorted].
  { unfold issues_in_window, sort_values_in_progress_start in H.
    case_bool_decide; [|discriminate]. injection H as <-. simpl.
    split; [|apply sort_by_start_sorted].
    unfold DataFrame_of.
    destruct (matched_rows wip_records (start_time target_month)
                (end_time target_month)) as [|rw l]; simpl.
    - reflexivity.
    - apply (sorted_rows_perm (rw :: l)). }
  split; [exact Hsorted|]. rewrite matched_rows_filter in Hperm.
  split; [exact Hperm|].
  apply (Permutation_Forall (Permutation_sym Hperm)).
  apply Forall_forall. intros rw Hrw.
  apply list_elem_of_fmap in Hrw as (r & -> & _). simpl. unfold days.
  assert (0 < ns_per_day) as Hpos by (unfold ns_per_day; lia).
  pose proof (Z.mul_div_le (r_end r - r_start r) ns_per_day Hpos).
  pose proof (Z.mul_succ_div_gt (r_end r - r_start r) ns_per_day Hpos).
  lia.
Qed.

Lemma X6_month_table_witness :
  get_issues_in_progress_in_month around_march (Month 2025 3) =
    Ok (Frame row_columns
          [row_of (interval (start_time (Month 2025 3))
                            (start_time (Month 2025 3) + day 1 + 5));
           row_of (interval (start_time (Month 2025 3) + day 5)
                            (start_time (Month 2025 3) + day 8))]) /\
  StronglySorted
    (fun a b => col_in_progress_start a <= col_in_progress_start b)
    [row_of (interval (start_time (Month 2025 3))
                      (start_time (Month 2025 3) + day 1 + 5));
     row_of (interval (start_time (Month 2025 3) + day 5)
                      (start_time (Month 2025 3) + day 8))].
Proof.
  assert (get_issues_in_progress_in_month around_march (Month 2025 3) =
            Ok (Frame row_columns
                  [row_of (interval (start_time (Month 2025 3))
                                    (start_time (Month 2025 3) + day 1 + 5));
                   row_of (interval (start_time (Month 2025 3) + day 5)
                                    (start_time (Month 2025 3) + day 8))])) as H
    by (vm_compute; reflexivity).
  split; [exact H|].
  exact (proj1 (X6_month_table _ _ _ H)).
Defined.

(** ** More on the daily count *)

Lemma covering_app recs1 recs2 d :
  covering (recs1 ++ recs2) d = covering recs1 d + covering recs2 d.
Proof.
  induction recs1 as [|r recs1 IH]; simpl.
  - unfold covering at 2. simpl. lia.
  - rewrite !covering_cons, IH. lia.
Qed.

Lemma covering_bounds recs d :
  0 <= covering recs d <= Z.of_nat (length recs).
Proof.
  unfold covering.
  pose proof (length_filter (fun record => covers record d = true) recs). lia.
Qed.

Lemma add_series_map (f g : Timestamp -> Z) index :
  add_series (map (fun d => (d, f d)) index) (map (fun d => (d, g d)) index) =
  map (fun d => (d, f d + g d)) index.
Proof.
  unfold add_series. induction index as [|d index IH]; simpl; [done|].
  by rewrite IH.
Qed.

(** X7: the daily counts add up over the records: the series of two lists
    of records taken together is the entrywise sum of their series, so the
    order of the records does not matter; and every count lies between 0
    and the number of records. *)
Theorem X7_counts_add_up now recs1 recs2 days_lookback :
  plot_daily_wip_time_series now (recs1 ++ recs2) days_lookback =
    add_series (plot_daily_wip_time_series now recs1 days_lookback)
               (plot_daily_wip_time_series now recs2 days_lookback) /\
  Forall
    (fun entry => 0 <= snd entry <= Z.of_nat (length recs1))
    (plot_daily_wip_time_series now recs1 days_lookback).
Proof.
  unfold plot_daily_wip_time_series. simpl.
  rewrite !daily_wip_counts_spec by apply date_range_NoDup. split.
  - rewrite add_series_map. apply map_ext. intros d. by rewrite covering_app.
  - apply Forall_forall. intros entry Hin.
    apply list_elem_of_fmap in Hin as (d & -> & _). simpl.
    apply covering_bounds.
Qed.





(** ** Cycle times *)

Lemma first_in_progress_item_Some entry s its :
  fold_left (first_in_progress_item entry) its (Some s) = Some s.
Proof.
  induction its as [|it its IH]; cbn [fold_left]; [reflexivity|].
  unfold first_in_progress_item at 2.
  rewrite (bool_decide_eq_false_2 (Some s = None)) by done.
  rewrite andb_false_r. by destruct (bool_decide _).
Qed.

Lemma first_in_progress_entry entry :
  fold_left (first_in_progress_item entry) (items entry) None =
  if enters entry then instant <$> created entry else None.
Proof.
  unfold enters. induction (items entry) as [|it its IH]; cbn [fold_left];
    [reflexivity|].
  unfold first_in_progress_item at 2. simpl.
  destruct (bool_decide (field it = Some "status"%string)); simpl;
    [|exact IH].
  destruct (bool_decide (toString it = Some tracked)); simpl; [|exact IH].
  destruct (created entry) as [c|]; simpl.
  - apply first_in_progress_item_Some.
  - rewrite IH. simpl. by destruct (existsb _ its).
Qed.

Lemma first_in_progress_spec changelog :
  first_in_progress changelog = head (entered_at changelog).
Proof.
  unfold first_in_progress, entered_at.
  induction changelog as [|entry l IH]; cbn [fold_left]; [reflexivity|].
  rewrite first_in_progress_entry. simpl.
  destruct (enters entry); [|exact IH].
  destruct (created entry) as [c|]; simpl; [|exact IH].
  clear IH. induction l as [|e l IH]; cbn [fold_left]; [reflexivity|].
  by rewrite first_in_progress_item_Some.
Qed.

Lemma cycle_time_issue_spec records i :
  raw_assignee i <> Some None ->
  cycle_time_issue records i =
  Ok (records ++ option_list (cycle_row_of i)).
Proof.
  intros Ha. unfold cycle_time_issue, cycle_row_of, assignee_displayName.
  rewrite first_in_progress_spec.
  destruct (raw_assignee i) as [[name|]|]; [|done|]; simpl;
    destruct (head (entered_at (raw_histories i))), (resolved_dt i); simpl;
    by rewrite ?app_nil_r.
Qed.

(** X9: when every assignee object has a display name,
    [parse_cycle_time_issues] returns, whatever the timestamps are: it
    yields, in the order of the issues, one row for each issue that has a
    non-empty resolution date and an entry with a timestamp into the tracked
    status.  The row starts at the first such entry in the order the
    changelog lists its entries, which need not be the earliest; entries
    without timestamp are passed over. *)
Theorem X9_cycle_rows issues :
  Forall (fun i => raw_assignee i <> Some None) issues ->
  parse_cycle_time_issues issues = Ok (omap cycle_row_of issues).
Proof.
  unfold parse_cycle_time_issues. intros H.
  enough (forall records,
             for_each cycle_time_issue issues records =
             Ok (records ++ omap cycle_row_of issues)) as Hgen
    by apply (Hgen []).
  induction H as [|i issues Hi _ IH]; intros records; simpl.
  - by rewrite app_nil_r.
  - rewrite cycle_time_issue_spec by done. simpl. rewrite IH, <- app_assoc.
    by destruct (cycle_row_of i).
Qed.

Lemma X9_cycle_rows_witness :
  Forall (fun i => raw_assignee i <> Some None) [newest_first; oldest_first] /\
  parse_cycle_time_issues [newest_first; oldest_first] =
    Ok [CycleRow (Some "K-10"%string) (Some "Newest first"%string)
          (Some "Ada"%string) (day 2) (day 3) 1 None None;
        CycleRow (Some "K-12"%string) (Some "Oldest first"%string)
          None (day 1) (day 3) 2 (Some "K-1"%string) None].
Proof.
  assert (Forall (fun i => raw_assignee i <> Some None)
                 [newest_first; oldest_first]) as H
    by (repeat constructor; discriminate).
  split; [exact H|].
  exact (X9_cycle_rows [newest_first; oldest_first] H).
Defined.

(** X10: an assignee object without display name raises [KeyError] in
    [parse_cycle_time_issues] and no table is returned for the batch, also
    when the issue itself would have no row. *)
Theorem X10_cycle_assignee_without_name issues :
  Exists (fun i => raw_assignee i = Some None) issues ->
  parse_cycle_time_issues issues = Raise (KeyError "displayName"%string).
Proof.
  unfold parse_cycle_time_issues. generalize (@nil cycle_row).
  intros records H. revert records.
  induction H as [i issues Hi|i issues _ IH]; intros records; simpl.
  - unfold cycle_time_issue, assignee_displayName. by rewrite Hi.
  - destruct (decide (raw_assignee i = Some None)) as [Hi|Hi].
    + unfold cycle_time_issue, assignee_displayName. by rewrite Hi.
    + rewrite cycle_time_issue_spec by done. simpl. apply IH.
Qed.

Lemma X10_cycle_assignee_without_name_witness :
  Exists (fun i => raw_assignee i = Some None) [oldest_first; nameless] /\
  parse_cycle_time_issues [oldest_first; nameless] =
    Raise (KeyError "displayName"%string).
Proof.
  assert (Exists (fun i => raw_assignee i = Some None) [oldest_first; nameless])
    as H by (apply Exists_cons_tl, Exists_cons_hd; reflexivity).
  split; [exact H|].
  exact (X10_cycle_assignee_without_name [oldest_first; nameless] H).
Defined.

Lemma scan_item_started iss t s st it :
  started s st -> started s (scan_item iss t st it).
Proof.
  destruct st as [recs w]. unfold scan_item.
  intros [[Hr Hw]|(r & rest & Hr & Hs)]; simpl in *; subst.
  - destruct (bool_decide (field it = Some "status"%string));
      [|by left].
    rewrite (bool_decide_eq_false_2 (Some s = None)) by done.
    rewrite andb_false_r.
    destruct (bool_decide (fromString it = Some tracked)); [|by left].
    right. by exists (record_of iss s t), [].
  - destruct (bool_decide (field it = Some "status"%string));
      [|right; by exists r, rest].
    destruct (bool_decide (toString it = Some tracked)
              && bool_decide (in_progress_start w = None));
      [right; by exists r, rest|].
    destruct (in_progress_start w); [|right; by exists r, rest].
    destruct (bool_decide (fromString it = Some tracked));
      right; [by exists r, (rest ++ [record_of iss t0 t])|by exists r, rest].
Qed.

Lemma scan_items_started iss t s st its :
  started s st -> started s (fold_left (scan_item iss t) its st).
Proof.
  revert st. induction its as [|it its IH]; intros st H; cbn [fold_left];
    [done|].
  by apply IH, scan_item_started.
Qed.

Lemma scan_items_fresh iss t its :
  if existsb
       (fun it =>
          bool_decide (field it = Some "status"%string)
          && bool_decide (toString it = Some tracked)) its
  then started t (fold_left (scan_item iss t) its ([], Walk None None))
  else fold_left (scan_item iss t) its ([], Walk None None)
       = ([], Walk None None).
Proof.
  induction its as [|it its IH]; cbn [fold_left existsb]; [reflexivity|].
  unfold scan_item at 2 4. simpl.
  destruct (bool_decide (field it = Some "status"%string)); simpl;
    [|exact IH].
  destruct (bool_decide (toString it = Some tracked)); simpl; [|exact IH].
  apply scan_items_started. by left.
Qed.

Lemma scan_entries_started iss s st entries :
  started s st -> started s (fold_left (scan_entry iss) entries st).
Proof.
  revert st. induction entries as [|en entries IH]; intros st H;
    cbn [fold_left]; [done|].
  apply IH. unfold scan_entry. by apply scan_items_started.
Qed.

Lemma scan_entries_fresh iss (ks : list (stamp * history)) :
  Forall (fun k => created (snd k) = Some (fst k)) ks ->
  match head (entered_at (map snd ks)) with
  | Some s => started s (scan_changelog iss [] ks)
  | None => scan_changelog iss [] ks = ([], Walk None None)
  end.
Proof.
  unfold scan_changelog, entered_at.
  induction 1 as [|[c h] ks Hc _ IH]; cbn [fold_left map omap]; [reflexivity|].
  simpl in Hc. unfold scan_entry at 2 4. simpl. rewrite Hc. simpl.
  pose proof (scan_items_fresh iss (instant c) (items h)) as Hh.
  unfold enters. destruct (existsb _ (items h)); simpl.
  - by apply scan_entries_started.
  - rewrite Hh. exact IH.
Qed.

(** X11: for a changelog that is listed in the order [sorted] puts it in,
    the two parsers agree on when the issue was first in progress: the start
    of its cycle time row is the start of the first record that
    [parse_wip_ranges] yields for the same issue. *)
Theorem X11_cycle_start_is_first_wip_start i row end_date r recs missing :
  listed_in_order (raw_histories i) ->
  parse_cycle_time_issues [i] = Ok [row] ->
  parse_wip_ranges [wip_view i] end_date = Ok (r :: recs, missing) ->
  cy_in_progress row = r_start r.
Proof.
  intros (ks & Hks & Hsorted) Hcycle Hwip.
  assert (head (entered_at (raw_histories i)) = Some (cy_in_progress row)) as Hs.
  { unfold parse_cycle_time_issues in Hcycle. simpl in Hcycle.
    apply bind_Ok in Hcycle as (rows & Hrow & Hcycle). injection Hcycle as ->.
    unfold cycle_time_issue in Hrow. rewrite first_in_progress_spec in Hrow.
    apply bind_Ok in Hrow as (a & _ & Hrow).
    destruct (head (entered_at (raw_histories i))) as [s|]; [|discriminate].
    destruct (resolved_dt i); [|discriminate].
    by injection Hrow as <-. }
  destruct (created_keys_spec _ _ Hks) as (Hsnd & _ & Hcr).
  pose proof (scan_entries_fresh (wip_view i) ks Hcr) as Hwalk.
  rewrite Hsnd, Hs in Hwalk.
  apply parse_single in Hwip as (b & Hb & Hrecs & _).
  apply process_issue_Ok in Hb as (entries & Hentries & Hb). simpl in Hentries.
  unfold sorted_by_created in Hentries. rewrite Hks in Hentries.
  simpl in Hentries. rewrite Hsorted in Hentries. injection Hentries as <-.
  simpl in Hb.
  destruct Hwalk as [[Hclosed Hw]|(r0 & rest & Hclosed & Hr0)].
  - rewrite Hclosed, Hw in Hb. unfold open_interval in Hb. simpl in Hb.
    destruct (bool_decide_reflect (raw_status i = Some tracked)) as [Hst|Hst].
    + destruct Hb as [(Hr & _)|(c & _ & _ & _ & _ & _ & _ & Hno)];
        [|discriminate].
      rewrite <- Hrecs in Hr. by injection Hr as -> _.
    + destruct Hb as [(Hr & _)|(c & _ & _ & _ & _ & Hst' & _)]; [|done].
      rewrite <- Hrecs in Hr. discriminate.
  - rewrite Hclosed in Hb.
    destruct Hb as [(Hr & _)|(c & _ & Hr & _)]; rewrite <- Hrecs in Hr;
      simpl in Hr; by injection Hr as -> _.
Qed.

Lemma X11_cycle_start_is_first_wip_start_witness :
  listed_in_order (raw_histories oldest_first) /\
  parse_cycle_time_issues [oldest_first] =
    Ok [CycleRow (Some "K-12"%string) (Some "Oldest first"%string)
          None (day 1) (day 3) 2 (Some "K-1"%string) None] /\
  parse_wip_ranges [wip_view oldest_first] (day 4) =
    Ok ([record_of (wip_view oldest_first) (day 1) (day 2)], []) /\
  day 1 = r_start (record_of (wip_view oldest_first) (day 1) (day 2)).
Proof.
  assert (listed_in_order (raw_histories oldest_first)) as H1
    by (eexists; split; reflexivity).
  assert (parse_cycle_time_issues [oldest_first] =
            Ok [CycleRow (Some "K-12"%string) (Some "Oldest first"%string)
                  None (day 1) (day 3) 2 (Some "K-1"%string) None]) as H2
    by reflexivity.
  assert (parse_wip_ranges [wip_view oldest_first] (day 4) =
            Ok ([record_of (wip_view oldest_first) (day 1) (day 2)], [])) as H3
    by reflexivity.
  split; [exact H1|]. split; [exact H2|]. split; [exact H3|].
  exact (X11_cycle_start_is_first_wip_start oldest_first _ (day 4) _ _ _
           H1 H2 H3).
Defined.

(** ** [clamp] *)

(** X12: with [min_val <= max_val] the clamped value lies in the range, is
    the value itself exactly when the value lies in the range, and clamping
    again changes nothing; with [min_val > max_val] the result is [min_val],
    whatever the value. *)
Theorem X12_clamp value min_val max_val :
  (min_val <= max_val ->
   min_val <= clamp value min_val max_val <= max_val /\
   (clamp value min_val max_val = value <-> min_val <= value <= max_val) /\
   clamp (clamp value min_val max_val) min_val max_val
     = clamp value min_val max_val) /\
  (max_val < min_val -> clamp value min_val max_val = min_val).
Proof. unfold clamp. lia. Qed.

Lemma X12_clamp_witness :
  0 <= 100 /\ 0 <= clamp 250 0 100 <= 100 /\ clamp 250 0 100 = 100.
Proof.
  assert (0 <= 100) as H by (vm_compute; discriminate).
  split; [exact H|]. split.
  - exact (proj1 (proj1 (X12_clamp 250 0 100) H)).
  - reflexivity.
Defined.

(** ** [classify_by_issueflag] *)

Lemma existsb_is_match_app match_value l1 l2 :
  existsb (is_match match_value) (l1 ++ l2) =
  existsb (is_match match_value) l1 || existsb (is_match match_value) l2.
Proof. apply existsb_app. Qed.

Lemma existsb_Permutation {A} (f : A -> bool) l1 l2 :
  Permutation l1 l2 -> existsb f l1 = existsb f l2.
Proof.
  induction 1 as [|x l1 l2 _ IH|x y l|l1 l2 l3 _ IH1 _ IH2]; simpl.
  - reflexivity.
  - by rewrite IH.
  - by destruct (f x), (f y).
  - by rewrite IH1.
Qed.

(** X13: the three shapes of a flag are classified alike: a dict as the
    list that holds just this dict, and a string as the dict whose ["value"]
    is this string.  The order of a list does not matter, and a list made
    of two parts gets the match label exactly when one of the parts does. *)
Theorem X13_classify_shapes match_value match_label default_label :
  (forall d,
     classify_by_issueflag (PyDict d) match_value match_label default_label =
     classify_by_issueflag (PyList [PyDict d]) match_value match_label
       default_label) /\
  (forall s,
     classify_by_issueflag (PyStr s) match_value match_label default_label =
     classify_by_issueflag (PyDict {[ "value"%string := PyStr s ]})
       match_value match_label default_label) /\
  (forall l1 l2,
     Permutation l1 l2 ->
     classify_by_issueflag (PyList l1) match_value match_label default_label =
     classify_by_issueflag (PyList l2) match_value match_label default_label) /\
  (match_label <> default_label ->
   forall l1 l2,
     classify_by_issueflag (PyList (l1 ++ l2)) match_value match_label
       default_label = match_label <->
     classify_by_issueflag (PyList l1) match_value match_label default_label
       = match_label \/
     classify_by_issueflag (PyList l2) match_value match_label default_label
       = match_label).
Proof.
  split; [|split; [|split]].
  - intros d. simpl. by rewrite orb_false_r.
  - intros s. simpl. unfold value_equals. by rewrite lookup_singleton_eq.
  - intros l1 l2 H. simpl. by rewrite (existsb_Permutation _ _ _ H).
  - intros Hne l1 l2. simpl. rewrite existsb_is_match_app.
    destruct (existsb (is_match match_value) l1),
             (existsb (is_match match_value) l2); simpl; naive_solver.
Qed.

Lemma X13_classify_shapes_witness :
  "KTLO"%string <> "Non-KTLO"%string /\
  classify_by_issueflag
    (PyList ([PyStr "Feature"] ++ [PyDict {[ "value"%string := PyStr "KTLO" ]}]))
    "KTLO" "KTLO" "Non-KTLO" = "KTLO"%string.
Proof.
  assert ("KTLO"%string <> "Non-KTLO"%string) as H by discriminate.
  split; [exact H|].
  apply (proj2 (proj2 (proj2 (proj2 (X13_classify_shapes "KTLO" "KTLO" "Non-KTLO"))) H
                  [PyStr "Feature"] [PyDict {[ "value"%string := PyStr "KTLO" ]}])).
  right. reflexivity.
Defined.

(** X14: in a list only dicts are looked at: a list without any dict, such
    as a list of plain strings, gets the default label even when the match
    value itself is in the list, although the bare string gets the match
    label. *)
Theorem X14_classify_list_of_strings l match_value match_label default_label :
  Forall not_a_dict l ->
  classify_by_issueflag (PyList l) match_value match_label default_label
    = default_label /\
  classify_by_issueflag (PyStr match_value) match_value match_label
    default_label = match_label.
Proof.
  intros H. simpl. rewrite bool_decide_eq_true_2 by done. split; [|done].
  replace (existsb (is_match match_value) l) with false; [done|].
  induction H as [|v l Hv _ IH]; simpl; [done|].
  rewrite <- IH. by destruct v.
Qed.

Lemma X14_classify_list_of_strings_witness :
  Forall not_a_dict [PyStr "Feature"; PyStr "KTLO"] /\
  classify_by_issueflag (PyList [PyStr "Feature"; PyStr "KTLO"])
    "KTLO" "KTLO" "Non-KTLO" = "Non-KTLO"%string /\
  classify_by_issueflag (PyStr "KTLO") "KTLO" "KTLO" "Non-KTLO"
    = "KTLO"%string.
Proof.
  assert (Forall not_a_dict [PyStr "Feature"; PyStr "KTLO"]) as H
    by (repeat constructor).
  split; [exact H|].
  exact (X14_classify_list_of_strings _ "KTLO" "KTLO" "Non-KTLO" H).
Defined.

(** ** The start of the query *)

(** X15: from a month of today between 1 and 12, the query starts exactly
    [months] months before the month of today if and only if that month
    lies in this year or in the year before, [month - 12 <= months <=
    month + 11]; this holds for every lookback from 0 to 12 months.  The
    start is never put before January of the year before: a longer lookback
    gives a start that is too late. *)
Theorem X15_query_start today months :
  1 <= p_month today <= 12 ->
  (month_index (query_start today months) = month_index today - months <->
   p_month today - 12 <= months <= p_month today + 11) /\
  (0 <= months <= 12 ->
   month_index (query_start today months) = month_index today - months) /\
  1 <= p_month (query_start today months) <= 12 /\
  p_year today - 1 <= p_year (query_start today months) <= p_year today.
Proof.
  intros Hm. unfold month_index, query_start. simpl.
  destruct (Z.eqb_spec ((p_month today - months + 12) mod 12) 0) as [H0|H0];
    destruct (Z.ltb_spec months (p_month today)) as [Hlt|Hge]; simpl;
    Z.div_mod_to_equations; lia.
Qed.

Lemma X15_query_start_witness :
  1 <= p_month (Month 2025 3) <= 12 /\
  query_start (Month 2025 3) 6 = Month 2024 9 /\
  month_index (query_start (Month 2025 3) 6) = month_index (Month 2025 3) - 6 /\
  query_start (Month 2025 3) 18 = Month 2024 9.
Proof.
  assert (1 <= p_month (Month 2025 3) <= 12) as H by (simpl; lia).
  split; [exact H|]. split; [reflexivity|]. split; [|reflexivity].
  apply (proj1 (proj2 (X15_query_start (Month 2025 3) 6 H))). lia.
Defined.

(** ** The pages of a search *)

Lemma fetch_loop_pages {A} jql max_results (pre : list (search_page A))
    answers token all_issues sent :
  Forall (fun p => stops p = false) pre ->
  fetch_loop jql max_results (map Page pre ++ answers) token all_issues sent =
  fetch_loop jql max_results answers (last (token :: map nextPageToken pre)
                                        ≫= id)
    (all_issues ++ issues_of pre)
    (sent ++ map (search_payload jql max_results)
                 (removelast (token :: map nextPageToken pre))).
Proof.
  intros H. revert token all_issues sent.
  induction H as [|p pre Hp _ IH]; intros token all_issues sent.
  - simpl. unfold issues_of. simpl. by rewrite !app_nil_r.
  - cbn [map app fetch_loop]. rewrite Hp, IH.
    unfold issues_of. cbn [map concat]. rewrite <- !app_assoc.
    reflexivity.
Qed.

Lemma removelast_last_map {B} (f : option string -> B) x (l : list (option string)) :
  map f (removelast (x :: l)) ++ [f (last (x :: l) ≫= id)] = map f (x :: l).
Proof.
  revert x. induction l as [|y l IH]; intros x; [reflexivity|].
  change (removelast (x :: y :: l)) with (x :: removelast (y :: l)).
  change (last (x :: y :: l)) with (last (y :: l)).
  cbn [map app]. by rewrite IH.
Qed.

Lemma payload_token {A} jql max_results (pre : list (search_page A)) :
  Forall (fun p => stops p = false) pre ->
  map pl_nextPageToken
      (map (search_payload jql max_results) (None :: map nextPageToken pre)) =
  None :: map nextPageToken pre.
Proof.
  intros H. cbn [map]. f_equal.
  induction H as [|p pre Hp _ IH]; cbn [map]; [reflexivity|].
  rewrite IH. f_equal. unfold search_payload. simpl.
  unfold stops in Hp. apply orb_false_iff in Hp as [_ Hp].
  apply negb_false_iff in Hp. by rewrite Hp.
Qed.

(** X16: when the server answers with pages of which the last is the first
    one that is marked last or has no token, [fetch_issues] returns the
    issues of all these pages in their order, after one request for each
    page: the first without token, each later one with the token of the page
    before.  It asks for nothing after the last page. *)
Theorem X16_fetch_collects_pages {A} jql max_results
    (pre : list (search_page A)) last_page rest :
  Forall (fun p => stops p = false) pre ->
  stops last_page = true ->
  fetch_issues jql max_results (map Page pre ++ Page last_page :: rest) =
    (Returned (issues_of (pre ++ [last_page])),
     map (search_payload jql max_results) (None :: map nextPageToken pre)) /\
  map pl_nextPageToken
      (snd (fetch_issues jql max_results
              (map Page pre ++ Page last_page :: rest))) =
    None :: map nextPageToken pre.
Proof.
  intros Hpre Hlast.
  assert (fetch_issues jql max_results (map Page pre ++ Page last_page :: rest) =
            (Returned (issues_of (pre ++ [last_page])),
             map (search_payload jql max_results)
                 (None :: map nextPageToken pre))) as H.
  { unfold fetch_issues. rewrite fetch_loop_pages by done.
    cbn [fetch_loop]. rewrite Hlast. f_equal.
    - unfold issues_of. rewrite map_app, concat_app. simpl.
      by rewrite app_nil_r.
    - cbn [app]. apply removelast_last_map. }
  split; [exact H|]. rewrite H. simpl snd. by apply payload_token.
Qed.

Lemma X16_fetch_collects_pages_witness :
  Forall (fun p => stops p = false) [page1; page2] /\
  stops page3 = true /\
  fetch_issues "project = K" 100
               (map Page [page1; page2] ++ Page page3 :: [Page page1]) =
    (Returned ["K-1"; "K-2"; "K-3"; "K-4"]%string,
     [search_payload "project = K" 100 None;
      search_payload "project = K" 100 (Some "t1"%string);
      search_payload "project = K" 100 (Some "t2"%string)]).
Proof.
  assert (Forall (fun p => stops p = false) [page1; page2]) as H1
    by (repeat constructor).
  assert (stops page3 = true) as H2 by reflexivity.
  split; [exact H1|]. split; [exact H2|].
  exact (proj1 (X16_fetch_collects_pages "project = K" 100 [page1; page2]
                  page3 [Page page1] H1 H2)).
Defined.

(** X17: when the server answers a request with a status that is not ok,
    [fetch_issues] raises and the issues of the pages before are not
    returned. *)
Theorem X17_fetch_error_loses_pages {A} jql max_results
    (pre : list (search_page A)) status_code rest :
  Forall (fun p => stops p = false) pre ->
  fetch_issues jql max_results (map Page pre ++ NotOk status_code :: rest) =
    (HTTPError status_code,
     map (search_payload jql max_results) (None :: map nextPageToken pre)).
Proof.
  intros Hpre. unfold fetch_issues. rewrite fetch_loop_pages by done.
  cbn [fetch_loop app]. f_equal. apply removelast_last_map.
Qed.

Lemma X17_fetch_error_loses_pages_witness :
  Forall (fun p => stops p = false) [page1; page2] /\
  fetch_issues "project = K" 100 (map Page [page1; page2] ++ NotOk 429 :: []) =
    (HTTPError 429,
     [search_payload "project = K" 100 None;
      search_payload "project = K" 100 (Some "t1"%string);
      search_payload "project = K" 100 (Some "t2"%string)]).
Proof.
  assert (Forall (fun p => stops p = false) [page1; page2]) as H1
    by (repeat constructor).
  split; [exact H1|].
  exact (X17_fetch_error_loses_pages "project = K" 100 [page1; page2] 429 []
           H1).
Defined.

(** X18: the loop has no limit of its own: after any number of pages that
    are neither marked last nor without token, [fetch_issues] has sent one
    more request and waits for its answer. *)
Theorem X18_fetch_has_no_page_limit {A} jql max_results
    (pages : list (search_page A)) :
  Forall (fun p => stops p = false) pages ->
  fetch_issues jql max_results (map Page pages) =
    (Waiting,
     map (search_payload jql max_results) (None :: map nextPageToken pages)) /\
  length (snd (fetch_issues jql max_results (map Page pages))) =
    S (length pages).
Proof.
  intros H.
  assert (fetch_issues jql max_results (map Page pages) =
            (Waiting,
             map (search_payload jql max_results)
                 (None :: map nextPageToken pages))) as Hrun.
  { unfold fetch_issues.
    rewrite <- (app_nil_r (map Page pages)), fetch_loop_pages by done.
    cbn [fetch_loop app]. f_equal. apply removelast_last_map. }
  split; [exact Hrun|]. rewrite Hrun. simpl. by rewrite !length_map.
Qed.

Lemma X18_fetch_has_no_page_limit_witness :
  Forall (fun p => stops p = false) [page1; page2; page1; page2] /\
  length (snd (fetch_issues "project = K" 100
                 (map Page [page1; page2; page1; page2]))) = 5%nat.
Proof.
  assert (Forall (fun p => stops p = false) [page1; page2; page1; page2]) as H
    by (repeat constructor).
  split; [exact H|].
  exact (proj2 (X18_fetch_has_no_page_limit "project = K" 100 _ H)).
Defined.

(** ** The lead time table *)

Lemma lead_time_issue_complete (records : list lead_row) (issue : lead_issue) :
  complete issue ->
  lead_time_issue records issue =
    Ok (records ++ match lead_row_of issue with Some r => [r] | None => [] end).
Proof.
  intros (fields & Hf & Ha & Hr).
  unfold lead_time_issue, lead_row_of, resolved in *. rewrite Hf in *. simpl.
  destruct (lf_assignee fields) as [[name|]|]; [|congruence|]; simpl;
    destruct (lf_resolutiondate fields) as [r|]; simpl;
    try (rewrite app_nil_r; reflexivity);
    destruct (lf_created fields) as [c|]; simpl;
    try (rewrite app_nil_r; reflexivity);
    (destruct Hr as [[k Hk] [s Hs]];
     [rewrite !bool_decide_eq_true_2 by eauto; reflexivity|]);
    rewrite Hk, Hs; reflexivity.
Qed.

Lemma for_each_lead_complete (issues : list lead_issue) (records : list lead_row) :
  Forall complete issues ->
  for_each lead_time_issue issues records = Ok (records ++ omap lead_row_of issues).
Proof.
  intros H. revert records.
  induction H as [|issue issues Hc _ IH]; intros records; simpl.
  - rewrite app_nil_r. reflexivity.
  - rewrite (lead_time_issue_complete _ _ Hc). simpl. rewrite IH.
    destruct (lead_row_of issue); simpl; rewrite <- ?app_assoc; reflexivity.
Qed.

Lemma lead_row_of_resolved (issue : lead_issue) :
  resolved issue = true <-> is_Some (lead_row_of issue).
Proof.
  unfold resolved, lead_row_of.
  destruct (li_fields issue) as [fields|]; simpl.
  - rewrite andb_true_iff, !bool_decide_eq_true.
    destruct (lf_resolutiondate fields) as [r|], (lf_created fields) as [c|];
      simpl; split; try (intros [[? ?] [? ?]]; discriminate);
      try (intros [? ?]; discriminate); eauto.
  - split; [discriminate|]. intros [? ?]. discriminate.
Qed.

(** X19: when every issue has its fields, every assignee object a name and
    every issue with both dates a key and a summary,
    [parse_issues_to_dataframe] returns one row for each issue that has both
    dates, in the order of the issues, and nothing for the others, whether
    they have a key and a summary or not; the lead time of a row is the
    number of whole days, rounded down, from the created to the resolved
    reading of the clock. *)
Theorem X19_lead_time_rows (issues : list lead_issue) :
  Forall complete issues ->
  parse_issues_to_dataframe issues = Ok (omap lead_row_of issues) /\
  length (omap lead_row_of issues) = length (filter (fun i => resolved i = true) issues) /\
  Forall (fun r =>
            86400 * lr_lead_time_days r
              <= dt_seconds (lr_resolved r) - dt_seconds (lr_created r)
              < 86400 * lr_lead_time_days r + 86400)
         (omap lead_row_of issues).
Proof.
  intros H. split; [|split].
  - unfold parse_issues_to_dataframe. rewrite for_each_lead_complete by done.
    reflexivity.
  - clear H. induction issues as [|i issues IH]; [reflexivity|].
    rewrite filter_cons. simpl.
    pose proof (lead_row_of_resolved i) as Hi.
    destruct (decide (resolved i = true)) as [Hr|Hr];
      destruct (lead_row_of i) as [r|]; simpl.
    + f_equal. exact IH.
    + apply Hi in Hr as [? ?]. discriminate.
    + destruct Hr. apply Hi. eauto.
    + exact IH.
  - apply Forall_forall. intros r Hr.
    apply list_elem_of_omap in Hr as (i & _ & Hi).
    unfold lead_row_of in Hi.
    destruct (li_fields i) as [fields|]; simpl in Hi; [|discriminate].
    destruct (lf_resolutiondate fields) as [rd|]; simpl in Hi; [|discriminate].
    destruct (lf_created fields) as [cd|]; simpl in Hi; [|discriminate].
    injection Hi as <-. simpl. unfold days_between.
    pose proof (Z.div_mod (dt_seconds rd - dt_seconds cd) 86400 ltac:(lia)).
    pose proof (Z.mod_pos_bound (dt_seconds rd - dt_seconds cd) 86400 ltac:(lia)).
    lia.
Qed.

Lemma X19_lead_time_rows_witness :
  Forall complete [closed_in_may; open_without_key] /\
  parse_issues_to_dataframe [closed_in_may; open_without_key] =
    Ok (omap lead_row_of [closed_in_may; open_without_key]) /\
  omap lead_row_of [closed_in_may; open_without_key] =
    [LeadRow (Some "K-20"%string) (Some "Closed in May"%string)
       (DateTime 2025 4 30 23 0 0) (DateTime 2025 5 2 22 59 59) 1
       None None None None].
Proof.
  assert (Hc : Forall complete [closed_in_may; open_without_key]).
  { repeat constructor.
    - eexists. split; [reflexivity|]. split; [discriminate|].
      intros _. split; eexists; reflexivity.
    - eexists. split; [reflexivity|]. split; [discriminate|].
      intros Hr. vm_compute in Hr. discriminate. }
  split; [exact Hc|]. split.
  - exact (proj1 (X19_lead_time_rows _ Hc)).
  - vm_compute. reflexivity.
Defined.

(** X20: one incomplete issue costs the whole table: after any number of
    complete issues, an issue without ["fields"] raises [KeyError] for
    ["fields"] and an assignee object without a name raises it for
    ["displayName"], both also for an issue that would give no row; an
    issue with both dates and a sound assignee raises it for ["key"] when
    it has no key, and for ["summary"] when it has a key and no summary.
    The rows of the earlier issues are not returned. *)
Theorem X20_lead_time_incomplete_issue
    (pre post : list lead_issue) (issue : lead_issue) :
  Forall complete pre ->
  (li_fields issue = None ->
   parse_issues_to_dataframe (pre ++ issue :: post) = Raise (KeyError "fields"%string)) /\
  (forall fields,
     li_fields issue = Some fields -> lf_assignee fields = Some None ->
     parse_issues_to_dataframe (pre ++ issue :: post) =
       Raise (KeyError "displayName"%string)) /\
  (forall fields,
     li_fields issue = Some fields -> lf_assignee fields <> Some None ->
     resolved issue = true ->
     (li_key issue = None ->
      parse_issues_to_dataframe (pre ++ issue :: post) = Raise (KeyError "key"%string)) /\
     (is_Some (li_key issue) -> lf_summary fields = None ->
      parse_issues_to_dataframe (pre ++ issue :: post) =
        Raise (KeyError "summary"%string))).
Proof.
  intros Hpre. unfold parse_issues_to_dataframe.
  rewrite for_each_app, for_each_lead_complete by done. simpl.
  split; [|split].
  - intros Hf. unfold lead_time_issue. rewrite Hf. reflexivity.
  - intros fields Hf Ha. unfold lead_time_issue. rewrite Hf. simpl.
    rewrite Ha. reflexivity.
  - intros fields Hf Ha Hr. unfold lead_time_issue, resolved in *.
    rewrite Hf in *. simpl.
    apply andb_true_iff in Hr as [Hr Hc].
    apply bool_decide_eq_true in Hr as [r Hr], Hc as [c Hc].
    rewrite Hr, Hc.
    destruct (lf_assignee fields) as [[name|]|]; [|congruence|]; simpl;
      (split; [intros ->; reflexivity|intros [k ->] ->; reflexivity]).
Qed.

Lemma X20_lead_time_incomplete_issue_witness :
  Forall complete [closed_in_may] /\
  parse_issues_to_dataframe ([closed_in_may] ++ without_fields :: [open_without_key]) =
    Raise (KeyError "fields"%string).
Proof.
  assert (Hc : Forall complete [closed_in_may]).
  { repeat constructor. eexists. split; [reflexivity|]. split; [discriminate|].
    intros _. split; eexists; reflexivity. }
  split; [exact Hc|].
  exact (proj1 (X20_lead_time_incomplete_issue [closed_in_may] [open_without_key]
                  without_fields Hc) eq_refl).
Defined.
